(** * The answer-resolution pipeline of [controllers/chatController.js]

    A shallow embedding of [loadEmbeddingsOnce], [smartFallback],
    [llmMeaningMatch] and [handleChat], and the properties of the pipeline
    proved over it.

    - JavaScript strings are sequences of UTF-16 code units: [list N].
    - JavaScript numbers are IEEE 754 binary64 values: Rocq's primitive
      [float], whose comparisons and arithmetic are the ones of the engine.
    - The module-level variables [memory], [EMB_CACHE] and [EMBEDDINGS] are
      fields of an explicit [State]; [EMB_CACHE] (a [Map]) is a [gmap].
    - The imported collaborators ([aiIntentRouter], [correctSpelling],
      [normalizeToMeaning], [embedText], [answerGeneralQuestion],
      [findTopMatches]) are not part of this file of the repository: they are
      fields of a record [Externals], each a function of the outside [world]
      that either returns a value or throws.
    - [await] is sequencing: one request runs from start to end; interleaving
      of concurrent requests is not modelled. *)

From Stdlib Require Import NArith List String Ascii Bool Lia Sorted.
From Stdlib Require Import Floats.PrimFloat.
From Stdlib Require Import ZArith Floats.
From stdpp Require Import gmap list.

Set Warnings "-inexact-float".

#[local] Open Scope N_scope.
#[local] Open Scope list_scope.

(** ** JavaScript values and string built-ins *)

Module JS.

(** A string is its sequence of UTF-16 code units. *)
Abbreviation jsstring := (list N).

(** An ASCII literal as a [jsstring]. *)
Fixpoint str (s : string) : jsstring :=
  match s with
  | EmptyString => []
  | String c s' => N_of_ascii c :: str s'
  end.

Arguments str : simpl never.

(** [s.length] *)
Definition strlen (s : jsstring) : nat := List.length s.

(** Truthiness of a string: every string but [""] is truthy. *)
Definition truthy (s : jsstring) : bool :=
  match s with [] => false | _ :: _ => true end.

(** [a === b] on strings. *)
Definition strictEq (a b : jsstring) : bool := bool_decide (a = b).

(** The code units that [trim] strips and that [\s] matches: WhiteSpace and
    LineTerminator of ECMA-262. *)
Definition isWhiteSpace (c : N) : bool :=
  (c =? 9) || (c =? 10) || (c =? 11) || (c =? 12) || (c =? 13)
  || (c =? 32) || (c =? 160) || (c =? 0x1680)
  || ((0x2000 <=? c) && (c <=? 0x200A))
  || (c =? 0x2028) || (c =? 0x2029) || (c =? 0x202F) || (c =? 0x205F)
  || (c =? 0x3000) || (c =? 0xFEFF).

Fixpoint trimStart (s : jsstring) : jsstring :=
  match s with
  | [] => []
  | c :: s' => if isWhiteSpace c then trimStart s' else s
  end.

Definition trimEnd (s : jsstring) : jsstring := rev (trimStart (rev s)).

(** [s.trim()] *)
Definition trim (s : jsstring) : jsstring := trimEnd (trimStart s).

(** [s.startsWith(p)] *)
Fixpoint startsWith (s p : jsstring) : bool :=
  match p, s with
  | [], _ => true
  | _ :: _, [] => false
  | a :: p', b :: s' => (a =? b) && startsWith s' p'
  end.

(** [s.includes(needle)] *)
Fixpoint includes (s needle : jsstring) : bool :=
  startsWith s needle
  || match s with
     | [] => false
     | _ :: s' => includes s' needle
     end.

(** [s.split(/\s+/)]: the pieces between maximal runs of white space. The
    piece before a leading run and the piece after a trailing run are kept
    (as empty strings), and [""] splits to [[""]].  [inGap] says that the
    scan is inside a run; [cur] is the piece read so far. *)
Fixpoint splitAux (inGap : bool) (cur s : jsstring) : list jsstring :=
  match s with
  | [] => [cur]
  | c :: s' =>
      if isWhiteSpace c
      then if inGap then splitAux true cur s' else cur :: splitAux true [] s'
      else splitAux false (cur ++ [c]) s'
  end.

Definition splitWhiteSpace (s : jsstring) : list jsstring :=
  splitAux false [] s.

(** [arr.join(sep)] *)
Fixpoint join (sep : jsstring) (arr : list jsstring) : jsstring :=
  match arr with
  | [] => []
  | [a] => a
  | a :: rest => a ++ sep ++ join sep rest
  end.

(** The values a request field can hold. *)
Inductive Value :=
| Undefined
| Null
| Boolean (b : bool)
| Number (x : float)
| String_ (s : jsstring)
| Object.

(** [!v] is false exactly on the truthy values. *)
Definition valueTruthy (v : Value) : bool :=
  match v with
  | Undefined | Null => false
  | Boolean b => b
  | Number x => negb (PrimFloat.eqb x 0%float) && PrimFloat.eqb x x
  | String_ s => truthy s
  | Object => true
  end.

End JS.

Import JS.

(** ** Data model *)

(** An entry of [rag/embeddings.json]. *)
Record KnowledgeEntry := {
  entry_question : jsstring;
  entry_answer : jsstring;
  embedding : list float
}.

(** An element of the array returned by [findTopMatches]: the fields that
    [handleChat] reads. *)
Record MatchCandidate := {
  question : jsstring;
  answer : jsstring;
  _score : float
}.

(** The object returned by [aiIntentRouter]. *)
Record AiIntent := {
  intent : jsstring;
  target : option jsstring
}.

(** [req.body]: [question] is any value; the name lists default to [[]]. *)
Record Request := {
  req_question : Value;
  panoNames : list jsstring;
  projectNames : list jsstring
}.

(** The [via] tags of the answers. *)
Inductive Via :=
| NoVector | NoMatch | MultiMatch | LlmValidated | LlmReject
| SemanticLlmUnavailable | LlmUnavailable | Semantic | Error.

Definition via_text (v : Via) : jsstring :=
  match v with
  | NoVector => str "no-vector"
  | NoMatch => str "no-match"
  | MultiMatch => str "multi-match"
  | LlmValidated => str "llm-validated"
  | LlmReject => str "llm-reject"
  | SemanticLlmUnavailable => str "semantic-llm-unavailable"
  | LlmUnavailable => str "llm-unavailable"
  | Semantic => str "semantic"
  | Error => str "error"
  end.

(** The objects passed to [res.json]: [{answer}], [{answer, via}] and
    [{intent, target}]. *)
Inductive Response :=
| Answer (text : jsstring) (via : option Via)
| Route (intent : jsstring) (target : option jsstring).

(** What reading and parsing [EMB_PATH] can give. *)
Inductive FileRead :=
| FileMissing
| FileUnreadable
| FileParsed (entries : list KnowledgeEntry).

(** A call either returns or throws. *)
Inductive Outcome (A : Type) :=
| Return (a : A)
| Throw (err : jsstring).
Arguments Return {A} a.
Arguments Throw {A} err.

(** The calls that leave the controller, recorded in the order they are made
    (most recent first).  The record is instrumentation of the model: it is
    what the statements about "no call is made" and "called once" refer to. *)
Inductive Event :=
| CallRouter (question : jsstring) (panos projects : list jsstring)
| CallCorrectSpelling (text : jsstring)
| CallNormalizeToMeaning (text : jsstring)
| CallEmbedText (text : jsstring)
| CallFindTopMatches (vector : list float) (normalized : jsstring) (k : nat)
| CallAnswerGeneralQuestion (prompt : jsstring).

Definition isEmbedCall (e : Event) : bool :=
  match e with CallEmbedText _ => true | _ => false end.
Definition isMatcherCall (e : Event) : bool :=
  match e with CallFindTopMatches _ _ _ => true | _ => false end.
Definition isLlmCall (e : Event) : bool :=
  match e with CallAnswerGeneralQuestion _ => true | _ => false end.

(** The host function and the collaborators, over a [world] that the
    controller does not see.  [toLowerCase] is the engine's
    [String.prototype.toLowerCase] (the Unicode case mapping). *)
Record Externals (W : Type) := {
  toLowerCase : jsstring -> jsstring;
  readEmbeddingsFile : W -> FileRead * W;
  aiIntentRouter :
    jsstring -> list jsstring -> list jsstring -> W -> Outcome AiIntent * W;
  correctSpelling : jsstring -> W -> Outcome jsstring * W;
  normalizeToMeaning : jsstring -> W -> Outcome jsstring * W;
  embedText : jsstring -> W -> Outcome (list float) * W;
  answerGeneralQuestion : jsstring -> W -> Outcome (option jsstring) * W;
  findTopMatches :
    list float -> list KnowledgeEntry -> jsstring -> nat ->
    W -> Outcome (list MatchCandidate) * W
}.
Arguments toLowerCase {W} _ _.
Arguments readEmbeddingsFile {W} _ _.
Arguments aiIntentRouter {W} _ _ _ _ _.
Arguments correctSpelling {W} _ _ _.
Arguments normalizeToMeaning {W} _ _ _.
Arguments embedText {W} _ _ _.
Arguments answerGeneralQuestion {W} _ _ _.
Arguments findTopMatches {W} _ _ _ _ _ _.

(** ** State and the state-and-exception monad *)

Record State (W : Type) := {
  memory : jsstring;
  EMB_CACHE : gmap (list N) (list float);
  EMBEDDINGS : list KnowledgeEntry;
  world : W;
  trace : list Event
}.
Arguments memory {W} _.
Arguments EMB_CACHE {W} _.
Arguments EMBEDDINGS {W} _.
Arguments world {W} _.
Arguments trace {W} _.
Arguments Build_State {W} _ _ _ _ _.

Definition M (W A : Type) : Type := State W -> Outcome A * State W.

Section Monad.
Context {W : Type}.

Definition ret {A} (a : A) : M W A := fun st => (Return a, st).

Definition throw {A} (err : jsstring) : M W A := fun st => (Throw err, st).

Definition bind {A B} (m : M W A) (k : A -> M W B) : M W B :=
  fun st =>
    match m st with
    | (Return a, st') => k a st'
    | (Throw err, st') => (Throw err, st')
    end.

(** [try { m } catch (err) { h err }] *)
Definition try_catch {A} (m : M W A) (h : jsstring -> M W A) : M W A :=
  fun st =>
    match m st with
    | (Return a, st') => (Return a, st')
    | (Throw err, st') => h err st'
    end.

(** A call to a collaborator: the world moves on and the call is recorded. *)
Definition call {A} (ev : Event) (f : W -> Outcome A * W) : M W A :=
  fun st =>
    let (r, w') := f (world st) in
    (r, Build_State (memory st) (EMB_CACHE st) (EMBEDDINGS st) w'
          (ev :: trace st)).

Definition getMemory : M W jsstring := fun st => (Return (memory st), st).

Definition setMemory (s : jsstring) : M W unit :=
  fun st =>
    (Return tt,
     Build_State s (EMB_CACHE st) (EMBEDDINGS st) (world st) (trace st)).

(** [EMB_CACHE.get(key)]: [None] is [undefined]. *)
Definition cacheGet (key : jsstring) : M W (option (list float)) :=
  fun st => (Return (EMB_CACHE st !! key), st).

(** [EMB_CACHE.set(key, vector)] *)
Definition cacheSet (key : jsstring) (vector : list float) : M W unit :=
  fun st =>
    (Return tt,
     Build_State (memory st) (<[key := vector]> (EMB_CACHE st))
       (EMBEDDINGS st) (world st) (trace st)).

Definition getEmbeddings : M W (list KnowledgeEntry) :=
  fun st => (Return (EMBEDDINGS st), st).

End Monad.

Notation "'let*' x ':=' m 'in' k" := (bind m (fun x => k))
  (at level 10, x name, m at level 100, k at level 200,
   format "'[v' 'let*'  x  ':='  m  'in' '/' k ']'").

(** ** The controller *)

Definition nl : jsstring := [10].
Definition dq : jsstring := [34].

(** The text returned by [smartFallback]; the apostrophe is U+2019. *)
Definition smartFallback : jsstring :=
  str "I don" ++ [8217] ++ str "t have that information in my data. "
  ++ str "Please visit https://montforticse.in/ or contact the school office for official details.".

(** The template literal of [llmMeaningMatch], around its two holes. *)
Definition promptHead : jsstring :=
  nl ++ str "Do these questions have EXACTLY the same meaning?" ++ nl
  ++ nl ++ str "Rules:" ++ nl
  ++ str "- Grammar changes DO NOT matter" ++ nl
  ++ str "- Word order DOES NOT matter" ++ nl
  ++ str "- Spelling mistakes DO NOT matter" ++ nl
  ++ str "- Synonyms count as same meaning:" ++ nl
  ++ str "  (school = campus)" ++ nl
  ++ str "  (class start time = school timing)" ++ nl
  ++ str "  (hostel food = mess food)" ++ nl
  ++ str "  (canteen = snack shop)" ++ nl
  ++ nl ++ str "Reply ONLY:" ++ nl
  ++ dq ++ str "yes" ++ dq ++ str " or " ++ dq ++ str "no" ++ dq ++ nl
  ++ nl ++ str "User: " ++ dq.
Definition promptMiddle : jsstring := dq ++ nl ++ str "Reference: " ++ dq.
Definition promptTail : jsstring := dq ++ nl ++ str "  ".

Definition MIN : float := 0.11%float.
Definition GAP : float := 0.06%float.
Definition TRUST : float := 0.55%float.

Definition requiredAnswer : Response :=
  Answer (str "question is required") None.

Definition typeofString (v : Value) : bool :=
  match v with String_ _ => true | _ => false end.

(** [low] and [ambi] of step 7.  [second] is [None] when [matches[1]] is
    [undefined], and then [second && ...] is falsy. *)
Definition low (best : MatchCandidate) : bool :=
  PrimFloat.ltb (_score best) MIN.

Definition ambi (best : MatchCandidate) (second : option MatchCandidate) : bool :=
  match second with
  | None => false
  | Some second =>
      PrimFloat.ltb (PrimFloat.abs (PrimFloat.sub (_score best) (_score second))) GAP
  end.

(** The text built in step 6:
    [matches.filter(m => m._score >= 0.08).map(m => `• ${m.answer}`).join("\n\n")];
    the bullet is U+2022. *)
Definition bulletLine (m : MatchCandidate) : jsstring :=
  [8226; 32] ++ answer m.

Definition qualifies (m : MatchCandidate) : bool :=
  PrimFloat.leb 0.08%float (_score m).

Definition multiMatchList (matches : list MatchCandidate) : jsstring :=
  join (nl ++ nl) (map bulletLine (List.filter qualifies matches)).

(** [normalized.split(/\s+/).length] *)
Definition tokenCount (normalized : jsstring) : nat :=
  length (splitWhiteSpace normalized).

(** Step 1: the query that goes on to spelling correction. *)
Definition mergeMemory (memory question : jsstring) : jsstring :=
  if truthy memory && (strlen question <=? 4)%nat
  then memory ++ str " " ++ question
  else question.

Section Controller.
Context {W : Type} (E : Externals W).

(** [loadEmbeddingsOnce]: nothing is read when [EMBEDDINGS] is non-empty;
    a missing or unparsable file leaves [[]].  It never throws. *)
Definition loadEmbeddingsOnce : M W unit :=
  fun st =>
    if (0 <? length (EMBEDDINGS st))%nat then (Return tt, st)
    else
      let (r, w') := readEmbeddingsFile E (world st) in
      let entries :=
        match r with
        | FileParsed entries => entries
        | FileMissing | FileUnreadable => []
        end in
      (Return tt,
       Build_State (memory st) (EMB_CACHE st) entries w' (trace st)).

(** [llmMeaningMatch]: [Some true], [Some false] and [None] are the
    [true], [false] and [null] of the source.  The reply [out] is [None]
    when the service gives [null] or [undefined]. *)
Definition llmMeaningMatch (userQ candidateQ : jsstring) : M W (option bool) :=
  let prompt := promptHead ++ userQ ++ promptMiddle ++ candidateQ ++ promptTail in
  try_catch
    (let* out := call (CallAnswerGeneralQuestion prompt)
                   (answerGeneralQuestion E prompt) in
     let ans := toLowerCase E (trim (default [] out)) in
     if strictEq ans (str "yes") then ret (Some true)
     else if strictEq ans (str "no") then ret (Some false)
     else if includes ans (str "montforticse.in")
             || startsWith ans
                  (str "i don" ++ [8217] ++ str "t have that information")
          then ret None
     else ret None)
    (fun err => ret None).

(** Steps 7, 8 and 9. *)
Definition scoreValidation (normalized : jsstring) (best : MatchCandidate)
    (second : option MatchCandidate) : M W Response :=
  if low best || ambi best second then
    let* ok := llmMeaningMatch normalized (question best) in
    match ok with
    | Some true => ret (Answer (answer best) (Some LlmValidated))
    | Some false => ret (Answer smartFallback (Some LlmReject))
    | None =>
        if negb (low best) && PrimFloat.leb TRUST (_score best)
        then ret (Answer (answer best) (Some SemanticLlmUnavailable))
        else ret (Answer smartFallback (Some LlmUnavailable))
    end
  else ret (Answer (answer best) (Some Semantic)).

(** Step 6. *)
Definition multiMatch (normalized : jsstring) (matches : list MatchCandidate)
    (best : MatchCandidate) (second : option MatchCandidate) : M W Response :=
  if (tokenCount normalized <=? 1)%nat then
    let list := multiMatchList matches in
    if truthy (trim list) then ret (Answer list (Some MultiMatch))
    else scoreValidation normalized best second
  else scoreValidation normalized best second.

(** Step 5. *)
Definition semanticSearch (normalized : jsstring) (vector : list float)
    : M W Response :=
  let* embeddings := getEmbeddings in
  let* matches := call (CallFindTopMatches vector normalized 5)
                    (findTopMatches E vector embeddings normalized 5) in
  match matches with
  | [] => ret (Answer smartFallback (Some NoMatch))
  | best :: rest => multiMatch normalized matches best (head rest)
  end.

(** Step 4, the cache: a stored array, even an empty one, is truthy, so
    only [undefined] (no entry) leads to [embedText]. *)
Definition embedCache (normalized : jsstring) : M W (list float) :=
  let* cached := cacheGet normalized in
  match cached with
  | Some vector => ret vector
  | None =>
      let* vector := call (CallEmbedText normalized)
                       (embedText E normalized) in
      let* _ := cacheSet normalized vector in
      ret vector
  end.

(** Step 4 and what follows. *)
Definition embed (normalized : jsstring) : M W Response :=
  let* vector := embedCache normalized in
  if (length vector =? 0)%nat
  then ret (Answer smartFallback (Some NoVector))
  else semanticSearch normalized vector.

(** Steps 2 and 3 and what follows. *)
Definition spellFix (finalUser : jsstring) : M W Response :=
  let* corrected := call (CallCorrectSpelling finalUser)
                      (correctSpelling E finalUser) in
  let* normalized := call (CallNormalizeToMeaning corrected)
                       (normalizeToMeaning E corrected) in
  embed normalized.

(** Step 1 and what follows. *)
Definition followUpMemory (question : jsstring) : M W Response :=
  let* memory := getMemory in
  let finalUser := mergeMemory memory question in
  let* _ := setMemory question in
  spellFix finalUser.

(** Step 0 and what follows. *)
Definition aiRouter (question : jsstring) (panoNames projectNames : list jsstring)
    : M W Response :=
  let* aiIntent := call (CallRouter question panoNames projectNames)
                     (aiIntentRouter E question panoNames projectNames) in
  if strictEq (intent aiIntent) (str "pano")
  then ret (Route (str "pano") (target aiIntent))
  else if strictEq (intent aiIntent) (str "project")
  then ret (Route (str "project") (target aiIntent))
  else followUpMemory question.

(** The body of the [try] block of [handleChat]. *)
Definition handleChat_try (req : Request) : M W Response :=
  let* _ := loadEmbeddingsOnce in
  let question := req_question req in
  if negb (valueTruthy question) || negb (typeofString question)
  then ret requiredAnswer
  else
    match question with
    | String_ question => aiRouter (trim question) (panoNames req) (projectNames req)
    | _ => ret requiredAnswer
    end.

(** The [catch] block of [handleChat]: whatever is thrown in the [try]
    block becomes the fallback answer tagged [error]. *)
Definition catchAll (m : M W Response) (st : State W) : Response * State W :=
  match m st with
  | (Return response, st') => (response, st')
  | (Throw err, st') => (Answer smartFallback (Some Error), st')
  end.

(** [handleChat]: the response passed to [res.json] and the state left. *)
Definition handleChat (req : Request) (st : State W) : Response * State W :=
  catchAll (handleChat_try req) st.

End Controller.

(** ** A scripted outside world, to run the controller *)

Module Script.

(** [toLowerCase] on Basic Latin: [A]-[Z] go to [a]-[z], the other code
    units stay. *)
Definition asciiLower (s : jsstring) : jsstring :=
  map (fun c => if (65 <=? c) && (c <=? 90) then c + 32 else c) s.

(** What each collaborator answers; the world counts the calls made. *)
Record Script := {
  fileSays : FileRead;
  routerSays : jsstring -> Outcome AiIntent;
  spellSays : jsstring -> Outcome jsstring;
  normalizeSays : jsstring -> Outcome jsstring;
  embedSays : jsstring -> Outcome (list float);
  matcherSays : list float -> jsstring -> Outcome (list MatchCandidate);
  llmSays : jsstring -> Outcome (option jsstring)
}.

Definition externals (s : Script) : Externals nat := {|
  toLowerCase := asciiLower;
  readEmbeddingsFile := fun w => (fileSays s, S w);
  aiIntentRouter := fun q _ _ w => (routerSays s q, S w);
  correctSpelling := fun t w => (spellSays s t, S w);
  normalizeToMeaning := fun t w => (normalizeSays s t, S w);
  embedText := fun t w => (embedSays s t, S w);
  answerGeneralQuestion := fun p w => (llmSays s p, S w);
  findTopMatches := fun v _ n _ w => (matcherSays s v n, S w)
|}.

Definition initial : State nat := Build_State [] ∅ [] 0%nat [].

Definition candidate (q a : string) (score : float) : MatchCandidate :=
  {| question := str q; answer := str a; _score := score |}.

(** A school assistant: no routing, identity normalization, a fixed
    embedding, three ranked candidates and a model that says [yes]. *)
Definition school : Script := {|
  fileSays := FileMissing;
  routerSays := fun _ => Return {| intent := str "school"; target := None |};
  spellSays := fun t => Return t;
  normalizeSays := fun t => Return t;
  embedSays := fun t => Return (match t with [] => [] | _ => [1%float; 0%float] end);
  matcherSays := fun _ _ =>
    Return [candidate "what are the fees" "Fees are paid per term." 0.5%float;
            candidate "what are the hostel fees" "Hostel fees are separate." 0.3%float;
            candidate "where is the canteen" "Next to the hall." 0.05%float];
  llmSays := fun _ => Return (Some (str "yes"))
|}.

Definition request (q : string) : Request :=
  {| req_question := String_ (str q); panoNames := []; projectNames := [] |}.

(** A state in which the previous question was ["school"]. *)
Definition remembered : State nat := Build_State (str "school") ∅ [] 0%nat [].

(** A router that sends every question to a panorama. *)
Definition tour : Script := {|
  fileSays := fileSays school;
  routerSays := fun q => Return {| intent := str "pano"; target := Some q |};
  spellSays := spellSays school;
  normalizeSays := normalizeSays school;
  embedSays := embedSays school;
  matcherSays := matcherSays school;
  llmSays := llmSays school
|}.

(** A normalizer that reduces every question to [""]. *)
Definition terse : Script := {|
  fileSays := fileSays school;
  routerSays := routerSays school;
  spellSays := spellSays school;
  normalizeSays := fun _ => Return [];
  embedSays := embedSays school;
  matcherSays := matcherSays school;
  llmSays := llmSays school
|}.

(** A spelling service that is down. *)
Definition down : Script := {|
  fileSays := fileSays school;
  routerSays := routerSays school;
  spellSays := fun _ => Throw (str "429");
  normalizeSays := normalizeSays school;
  embedSays := embedSays school;
  matcherSays := matcherSays school;
  llmSays := llmSays school
|}.

Definition fees : MatchCandidate :=
  candidate "what are the fees" "Fees are paid per term." 0.5%float.
Definition hostel : MatchCandidate :=
  candidate "what are the hostel fees" "Hostel fees are separate." 0.3%float.
Definition uniform : MatchCandidate :=
  candidate "what is the uniform" "White and navy." 0.47%float.

End Script.

(** ** The vocabulary of the statements *)

(** An event is fine unless it is a matcher call on an empty vector. *)
Definition okEvent (e : Event) : Prop :=
  match e with
  | CallFindTopMatches vector _ _ => vector <> []
  | _ => True
  end.

Section Relations.
Context {W : Type}.

(** [m] keeps [R]: the state a run of [m] leaves is [R]-related to the one
    it started from, whether [m] returns or throws. *)
Definition keeps {A} (R : State W -> State W -> Prop) (m : M W A) : Prop :=
  forall st, R st (snd (m st)).

(** Every value [m] returns satisfies [P]. *)
Definition returns {A} (P : A -> Prop) (m : M W A) : Prop :=
  forall st a st', m st = (Return a, st') -> P a.

(** The relations on states that every collaborator call (on a fine event)
    and every cache fill respect. *)
Class Frame (R : State W -> State W -> Prop) : Prop := {
  frame_refl : forall st, R st st;
  frame_trans : forall st1 st2 st3, R st1 st2 -> R st2 st3 -> R st1 st3;
  frame_call : forall st w ev,
    okEvent ev ->
    R st (Build_State (memory st) (EMB_CACHE st) (EMBEDDINGS st) w
            (ev :: trace st));
  frame_cache : forall st key vector,
    EMB_CACHE st !! key = None ->
    R st (Build_State (memory st) (<[key := vector]> (EMB_CACHE st))
            (EMBEDDINGS st) (world st) (trace st));
  frame_load : forall st entries w,
    R st (Build_State (memory st) (EMB_CACHE st) entries w (trace st))
}.

(** The relations that the write to [memory] respects as well. *)
Class MemoryFrame (R : State W -> State W -> Prop) : Prop :=
  frame_memory : forall st s,
    R st (Build_State s (EMB_CACHE st) (EMBEDDINGS st) (world st) (trace st)).

Definition sameMemory (st st' : State W) : Prop := memory st' = memory st.

Definition cacheGrows (st st' : State W) : Prop :=
  forall key vector,
    EMB_CACHE st !! key = Some vector -> EMB_CACHE st' !! key = Some vector.

(** The events recorded between [st] and [st'] all satisfy [P]. *)
Definition emits (P : Event -> Prop) (st st' : State W) : Prop :=
  exists evs, trace st' = evs ++ trace st /\ Forall P evs.

End Relations.

Section Vocabulary.
Context {W : Type} (E : Externals W).

(** The verdict as the specification words it: ["yes"] is MATCH, ["no"] is
    NO_MATCH, anything else and any failure is UNKNOWN. *)
Definition triState (reply : Outcome (option jsstring)) : option bool :=
  match reply with
  | Throw _ => None
  | Return out =>
      let ans := toLowerCase E (trim (default [] out)) in
      if strictEq ans (str "yes") then Some true
      else if strictEq ans (str "no") then Some false
      else None
  end.

(** The state after [loadEmbeddingsOnce]. *)
Definition loaded (st : State W) : State W := snd (loadEmbeddingsOnce E st).

(** The request carries a question that passes the check
    [!question || typeof question !== "string"]. *)
Definition accepted (req : Request) (q : jsstring) : Prop :=
  req_question req = String_ q /\ q <> [].

(** The request is accepted and the router sends it on to step 1. *)
Definition routed (req : Request) (q : jsstring) (st : State W)
    (ai : AiIntent) (w : W) : Prop :=
  accepted req q
  /\ aiIntentRouter E (trim q) (panoNames req) (projectNames req)
       (world (loaded st)) = (Return ai, w)
  /\ intent ai <> str "pano"
  /\ intent ai <> str "project".

(** The state in which step 2 starts, for a routed request. *)
Definition pipelineState (req : Request) (q : jsstring) (st : State W) (w : W)
    : State W :=
  Build_State (trim q) (EMB_CACHE st) (EMBEDDINGS (loaded st)) w
    (CallRouter (trim q) (panoNames req) (projectNames req) :: trace st).

(** The request gets to step 4 with [normalized], in state [st3]. *)
Definition atEmbed (req : Request) (st : State W) (normalized : jsstring)
    (st3 : State W) : Prop :=
  exists q ai w1 corrected w2 w3,
    routed req q st ai w1
    /\ correctSpelling E (mergeMemory (memory st) (trim q)) w1
       = (Return corrected, w2)
    /\ normalizeToMeaning E corrected w2 = (Return normalized, w3)
    /\ st3 = Build_State (trim q) (EMB_CACHE st) (EMBEDDINGS (loaded st)) w3
               (CallNormalizeToMeaning corrected
                :: CallCorrectSpelling (mergeMemory (memory st) (trim q))
                :: CallRouter (trim q) (panoNames req) (projectNames req)
                :: trace st).

End Vocabulary.

(** The matcher's contract: candidates come in descending order of score. *)
Definition descending (matches : list MatchCandidate) : Prop :=
  StronglySorted
    (fun a b => PrimFloat.leb (_score b) (_score a) = true) matches.

Definition isFallbackTag (via : Via) : bool :=
  match via with
  | NoVector | NoMatch | LlmReject | LlmUnavailable | Error => true
  | MultiMatch | LlmValidated | SemanticLlmUnavailable | Semantic => false
  end.

(** What steps 0 to 9 respond: [{intent, target}] with intent [pano] or
    [project], or [{answer, via}], where the tags of the fallback go with the
    text of [smartFallback]. *)
Definition pipelineResponse (r : Response) : Prop :=
  match r with
  | Route i _ => i = str "pano" \/ i = str "project"
  | Answer _ None => False
  | Answer text (Some via) => isFallbackTag via = true -> text = smartFallback
  end.

(** What [handleChat] responds: the above, or [{answer: "question is
    required"}]. *)
Definition wellFormed (r : Response) : Prop :=
  r = requiredAnswer \/ pipelineResponse r.

(** ** The order of the calls and the footprint of the steps *)

(** The place of a collaborator in the pipeline. *)
Definition stageOf (e : Event) : nat :=
  match e with
  | CallRouter _ _ _ => 0
  | CallCorrectSpelling _ => 1
  | CallNormalizeToMeaning _ => 2
  | CallEmbedText _ => 3
  | CallFindTopMatches _ _ _ => 4
  | CallAnswerGeneralQuestion _ => 5
  end.

(** The tags of the answers given after the language model was asked. *)
Definition consulted (r : Response) : bool :=
  match r with
  | Answer _ (Some (LlmValidated | LlmReject | SemanticLlmUnavailable
                    | LlmUnavailable)) => true
  | _ => false
  end.

(** The number of calls to the language model among [evs]. *)
Definition llmCalls (evs : list Event) : nat :=
  length (List.filter isLlmCall evs).

(** [x] is NaN: the only number that is not equal to itself. *)
Definition isNaN (x : float) : bool := negb (PrimFloat.eqb x x).

Section Footprints.
Context {W : Type}.

(** The calls recorded between [st] and [st'] are at stages from [lo] up to,
    not including, [hi], each stage at most once, later stages later (the
    record has the most recent call first). *)
Definition between (lo hi : nat) (st st' : State W) : Prop :=
  exists evs,
    trace st' = evs ++ trace st
    /\ StronglySorted (fun a b => (stageOf b < stageOf a)%nat) evs
    /\ Forall (fun e => (lo <= stageOf e < hi)%nat) evs.

(** Nothing but the world and the record of calls has changed. *)
Definition onlyCalls (st st' : State W) : Prop :=
  memory st' = memory st
  /\ EMB_CACHE st' = EMB_CACHE st
  /\ EMBEDDINGS st' = EMBEDDINGS st.

Definition sameStore (st st' : State W) : Prop :=
  EMBEDDINGS st' = EMBEDDINGS st.

(** The relations that every collaborator call respects. *)
Class Quiet (R : State W -> State W -> Prop) : Prop := {
  quiet_refl : forall st, R st st;
  quiet_trans : forall st1 st2 st3, R st1 st2 -> R st2 st3 -> R st1 st3;
  quiet_call : forall st w ev,
    R st (Build_State (memory st) (EMB_CACHE st) (EMBEDDINGS st) w
            (ev :: trace st))
}.

(** The relations that the writes to [EMB_CACHE] and [memory] respect. *)
Class Writes (R : State W -> State W -> Prop) : Prop := {
  writes_cache : forall st key vector,
    R st (Build_State (memory st) (<[key := vector]> (EMB_CACHE st))
            (EMBEDDINGS st) (world st) (trace st));
  writes_memory : forall st s,
    R st (Build_State s (EMB_CACHE st) (EMBEDDINGS st) (world st) (trace st))
}.

(** The calls to the language model recorded between [st] and [st'] are as
    many as the outcome tells: one when the response carries a tag of the
    arbitration, none otherwise, and none when the step throws. *)
Definition llmTally (st : State W) (o : Outcome Response) (st' : State W)
    : Prop :=
  exists evs,
    trace st' = evs ++ trace st
    /\ llmCalls evs
       = match o with
         | Return r => if consulted r then 1%nat else 0%nat
         | Throw _ => 0%nat
         end.

End Footprints.

(** ** [list-models.js] *)

Module ListModels.

(** [s.replace(pattern, replacement)] for a string [pattern] and a
    [replacement] without [$]: the first occurrence is replaced; an empty
    pattern occurs at the start. *)
Fixpoint replaceFirst (s pattern replacement : jsstring) : jsstring :=
  if startsWith s pattern
  then replacement ++ skipn (length pattern) s
  else match s with
       | [] => []
       | c :: s' => c :: replaceFirst s' pattern replacement
       end.

Definition endpoint : jsstring :=
  str "https://generativelanguage.googleapis.com/v1beta/models?key=".

(** The URL that is fetched; [key] is [ENV.GEMINI_API_KEY]. *)
Definition url (key : jsstring) : jsstring := endpoint ++ key.

(** The URL that is logged. *)
Definition loggedUrl (key : jsstring) : jsstring :=
  replaceFirst (url key) key (str "HIDDEN_KEY").

(** An element of [data.models]; [name] is [None] when the field is
    missing or is not a string, where [m.name.includes] throws.  The methods
    are taken to be an array of strings. *)
Record Model := {
  name : option jsstring;
  supportedGenerationMethods : list jsstring
}.

(** What is written to the console. *)
Inductive Log :=
| LogFetching (shown : jsstring)
| LogAvailable
| LogModel (line : jsstring)
| LogNoModels
| LogError.

(** [`- ${m.name} (Supported methods: ${m.supportedGenerationMethods})`];
    an array in a template is its elements joined by commas. *)
Definition modelLine (n : jsstring) (m : Model) : jsstring :=
  str "- " ++ n ++ str " (Supported methods: "
  ++ join (str ",") (supportedGenerationMethods m) ++ str ")".

(** [data.models.forEach(...)]: the lines written, and whether the loop
    ended or was left by the [TypeError] of [m.name.includes] on a model
    without a name. *)
Fixpoint forEachModel (models : list Model) : list Log * Outcome unit :=
  match models with
  | [] => ([], Return tt)
  | m :: rest =>
      match name m with
      | None => ([], Throw (str "TypeError"))
      | Some n =>
          let written :=
            if includes n (str "embed") then [LogModel (modelLine n m)]
            else [] in
          let (more, r) := forEachModel rest in
          (written ++ more, r)
      end
  end.

Section Listing.
(** [fetch(url)] followed by [res.json()]: what [data.models] holds ([None]
    when it is missing), or a failure. *)
Context (fetchModels : jsstring -> Outcome (option (list Model))).

(** [listModels]: the console, first line first. *)
Definition listModels (key : jsstring) : list Log :=
  LogFetching (loggedUrl key)
  :: match fetchModels (url key) with
     | Throw _ => [LogError]
     | Return None => [LogNoModels]
     | Return (Some models) =>
         let (lines, r) := forEachModel models in
         LogAvailable :: lines
         ++ match r with
            | Return _ => []
            | Throw _ => [LogError]
            end
     end.

End Listing.

(** A key of the usual form, and keys that occur in the endpoint. *)
Definition sampleKey : jsstring := str "AIzaSyD3m0-K3y_0123456789".

Definition sampleModels : list Model :=
  [ {| name := Some (str "models/gemini-pro");
       supportedGenerationMethods := [str "generateContent"] |};
    {| name := Some (str "models/text-embedding-004");
       supportedGenerationMethods := [str "embedContent"; str "batchEmbed"] |};
    {| name := None; supportedGenerationMethods := [] |};
    {| name := Some (str "models/embedding-001");
       supportedGenerationMethods := [str "embedContent"] |} ].

End ListModels.

(** ** More scripted worlds *)

Module Worlds.
Import Script.

(** A matcher that finds nothing. *)
Definition barren : Script := {|
  fileSays := fileSays school;
  routerSays := routerSays school;
  spellSays := spellSays school;
  normalizeSays := normalizeSays school;
  embedSays := embedSays school;
  matcherSays := fun _ _ => Return [];
  llmSays := llmSays school
|}.

(** A language model that is rate-limited. *)
Definition silent : Script := {|
  fileSays := fileSays school;
  routerSays := routerSays school;
  spellSays := spellSays school;
  normalizeSays := normalizeSays school;
  embedSays := embedSays school;
  matcherSays := matcherSays school;
  llmSays := fun _ => Throw (str "429")
|}.

(** A state whose knowledge store holds an entry. *)
Definition stocked : State nat :=
  Build_State [] ∅
    [{| entry_question := str "what are the fees";
        entry_answer := str "Fees are paid per term.";
        embedding := [1%float; 0%float] |}]
    0%nat [].

(** A request whose question is a number. *)
Definition numeric : Request :=
  {| req_question := Number 5%float; panoNames := []; projectNames := [] |}.

Definition strong : MatchCandidate :=
  candidate "what are the fees" "Fees are paid per term." 0.6%float.
Definition close : MatchCandidate :=
  candidate "what are the hostel fees" "Hostel fees are separate." 0.58%float.
Definition weak : MatchCandidate :=
  candidate "where is the canteen" "Next to the hall." 0.05%float.
Definition undefinedScore : MatchCandidate :=
  candidate "what are the fees" "Fees are paid per term." PrimFloat.nan.

(** The state after a first request ["school fees"]. *)
Definition afterSchoolFees : State nat :=
  snd (handleChat (externals school)
         {| req_question := String_ (str "school fees"); panoNames := [];
            projectNames := [] |} initial).

End Worlds.

(** ** Facts about the string built-ins *)

Section Strings.

Lemma trimStart_nil (s : jsstring) :
  trimStart s = [] -> forallb isWhiteSpace s = true.
Proof.
  induction s as [|c s IH]; simpl; [reflexivity|].
  destruct (isWhiteSpace c); [exact IH | discriminate].
Qed.

Lemma trimStart_blank (s : jsstring) :
  forallb isWhiteSpace s = true -> trimStart s = [].
Proof.
  induction s as [|c s IH]; simpl; [reflexivity|].
  destruct (isWhiteSpace c); simpl; [exact IH | discriminate].
Qed.

(** A string of white space only trims to [""]. *)
Lemma trim_blank (s : jsstring) :
  forallb isWhiteSpace s = true -> trim s = [].
Proof.
  intros H. unfold trim, trimEnd. rewrite (trimStart_blank s H). reflexivity.
Qed.

(** A string that starts with a code unit that is not white space does not
    trim to [""]. *)
Lemma trim_truthy (c : N) (s : jsstring) :
  isWhiteSpace c = false -> truthy (trim (c :: s)) = true.
Proof.
  intros Hc. unfold trim. simpl trimStart. rewrite Hc.
  unfold trimEnd.
  destruct (trimStart (rev (c :: s))) as [|d t] eqn:Ht.
  - apply trimStart_nil in Ht.
    rewrite forallb_forall in Ht.
    rewrite (Ht c) in Hc; [discriminate|].
    apply in_rev. rewrite rev_involutive. left. reflexivity.
  - destruct (rev (d :: t)) eqn:Hr; [|reflexivity].
    apply (f_equal (@length N)) in Hr. rewrite length_rev in Hr.
    discriminate.
Qed.

Lemma splitAux_length_pos (s : jsstring) :
  forall inGap cur, (1 <= length (splitAux inGap cur s))%nat.
Proof.
  induction s as [|c s IH]; intros inGap cur; simpl; [lia|].
  destruct (isWhiteSpace c); [destruct inGap|]; simpl; auto with arith.
Qed.

Lemma splitAux_single (s : jsstring) :
  forall cur,
    length (splitAux false cur s) = 1%nat <-> existsb isWhiteSpace s = false.
Proof.
  induction s as [|c s IH]; intros cur; simpl; [tauto|].
  destruct (isWhiteSpace c); simpl.
  - pose proof (splitAux_length_pos s true []). split; [lia | discriminate].
  - apply IH.
Qed.

(** [split(/\s+/)] gives one piece exactly on the strings without any
    white space, [""] among them; it never gives less. *)
Lemma tokenCount_single (s : jsstring) :
  tokenCount s = 1%nat <-> existsb isWhiteSpace s = false.
Proof. apply splitAux_single. Qed.

Lemma tokenCount_pos (s : jsstring) : (1 <= tokenCount s)%nat.
Proof. apply splitAux_length_pos. Qed.

Lemma join_cons_head (sep a : jsstring) (rest : list jsstring) :
  exists tail, join sep (a :: rest) = a ++ tail.
Proof.
  destruct rest as [|b rest]; simpl.
  - exists []. symmetry. apply app_nil_r.
  - eexists. reflexivity.
Qed.

(** The text of step 6 is truthy after [trim] exactly when a candidate
    qualifies: every line starts with the bullet. *)
Lemma multiMatchList_truthy (matches : list MatchCandidate) :
  truthy (trim (multiMatchList matches)) = existsb qualifies matches.
Proof.
  unfold multiMatchList.
  induction matches as [|m ms IH]; [reflexivity|].
  simpl List.filter. simpl existsb.
  destruct (qualifies m); simpl orb; [|exact IH].
  simpl map.
  destruct (join_cons_head (nl ++ nl) (bulletLine m)
              (map bulletLine (List.filter qualifies ms))) as [tail ->].
  unfold bulletLine. simpl app. apply trim_truthy. reflexivity.
Qed.

End Strings.

(** ** Reasoning about runs *)

Section Logic.
Context {W : Type}.

#[export] Instance sameMemory_frame : Frame (@sameMemory W).
Proof. split; unfold sameMemory; simpl; intros; congruence. Qed.

#[export] Instance cacheGrows_frame : Frame (@cacheGrows W).
Proof.
  split; unfold cacheGrows; simpl; intros; auto.
  rewrite lookup_insert_ne; [assumption | congruence].
Qed.

#[export] Instance cacheGrows_memory : MemoryFrame (@cacheGrows W).
Proof. unfold MemoryFrame, cacheGrows; simpl; auto. Qed.

Lemma emits_frame (P : Event -> Prop) :
  (forall ev, okEvent ev -> P ev) -> Frame (@emits W P).
Proof.
  intros HP. split; unfold emits; simpl.
  - intros st. exists []. split; [reflexivity | constructor].
  - intros st1 st2 st3 [e1 [H1 F1]] [e2 [H2 F2]].
    exists (e2 ++ e1). split.
    + rewrite H2, H1. apply app_assoc.
    + apply Forall_app; split; assumption.
  - intros st w ev Hev. exists [ev]. split; [reflexivity|].
    constructor; [apply HP; exact Hev | constructor].
  - intros st key vector _. exists []. split; [reflexivity | constructor].
  - intros st entries w. exists []. split; [reflexivity | constructor].
Qed.

#[export] Instance emits_ok_frame : Frame (@emits W okEvent).
Proof. apply emits_frame. auto. Qed.

#[export] Instance emits_any_frame : Frame (@emits W (fun _ => True)).
Proof. apply emits_frame. auto. Qed.

#[export] Instance emits_memory (P : Event -> Prop) : MemoryFrame (@emits W P).
Proof.
  intros st s. exists []. split; [reflexivity | constructor].
Qed.

Section Rules.
Context (R : State W -> State W -> Prop) `{!Frame R}.

Lemma keeps_ret {A} (a : A) : keeps R (ret a).
Proof. intros st. apply frame_refl. Qed.

Lemma keeps_bind {A B} (m : M W A) (k : A -> M W B) :
  keeps R m -> (forall a, keeps R (k a)) -> keeps R (bind m k).
Proof.
  intros Hm Hk st. unfold bind. specialize (Hm st).
  destruct (m st) as [[a|err] st1]; simpl in *; [|exact Hm].
  eapply frame_trans; [exact Hm | apply Hk].
Qed.

Lemma keeps_try_catch {A} (m : M W A) (h : jsstring -> M W A) :
  keeps R m -> (forall err, keeps R (h err)) -> keeps R (try_catch m h).
Proof.
  intros Hm Hh st. unfold try_catch. specialize (Hm st).
  destruct (m st) as [[a|err] st1]; simpl in *; [exact Hm|].
  eapply frame_trans; [exact Hm | apply Hh].
Qed.

Lemma keeps_call {A} (ev : Event) (f : W -> Outcome A * W) :
  okEvent ev -> keeps R (call ev f).
Proof.
  intros Hev st. unfold call. destruct (f (world st)) as [r w].
  simpl. apply frame_call. exact Hev.
Qed.

Lemma keeps_getMemory : keeps R getMemory.
Proof. intros st. apply frame_refl. Qed.

Lemma keeps_getEmbeddings : keeps R getEmbeddings.
Proof. intros st. apply frame_refl. Qed.

End Rules.

Lemma returns_ret {A} (P : A -> Prop) (a : A) :
  P a -> returns P (@ret W A a).
Proof. intros H st b st' E. inversion E. subst. exact H. Qed.

Lemma returns_bind {A B} (P : B -> Prop) (m : M W A) (k : A -> M W B) :
  (forall a, returns P (k a)) -> returns P (bind m k).
Proof.
  intros Hk st b st' E. unfold bind in E.
  destruct (m st) as [[a|err] st1]; [|discriminate].
  eapply Hk. exact E.
Qed.

End Logic.

Ltac keeps_step :=
  match goal with
  | H : keeps ?R ?m |- keeps ?R ?m => exact H
  | H : forall x, keeps ?R _ |- keeps ?R _ => apply H
  | |- keeps ?R (ret _) => apply (keeps_ret R)
  | |- keeps ?R getMemory => apply (keeps_getMemory R)
  | |- keeps ?R getEmbeddings => apply (keeps_getEmbeddings R)
  | |- keeps ?R (call _ _) => apply (keeps_call R); solve [simpl; auto]
  | |- keeps ?R (bind _ _) => apply (keeps_bind R); [|intros ?]
  | |- keeps ?R (try_catch _ _) => apply (keeps_try_catch R); [|intros ?]
  | |- keeps _ (if ?b then _ else _) => destruct b
  | |- keeps _ (match ?x with _ => _ end) => destruct x
  end.

Ltac keeps_auto := repeat keeps_step.

(** ** What the steps of [handleChat] keep *)

Section Stages.
Context {W : Type} (E : Externals W).
Context (R : State W -> State W -> Prop) `{!Frame R}.

Lemma llmMeaningMatch_keeps (userQ candidateQ : jsstring) :
  keeps R (llmMeaningMatch E userQ candidateQ).
Proof. unfold llmMeaningMatch. cbv zeta. keeps_auto. Qed.

Lemma scoreValidation_keeps normalized best second :
  keeps R (scoreValidation E normalized best second).
Proof.
  unfold scoreValidation.
  pose proof (llmMeaningMatch_keeps normalized (question best)).
  keeps_auto.
Qed.

Lemma multiMatch_keeps normalized matches best second :
  keeps R (multiMatch E normalized matches best second).
Proof.
  unfold multiMatch. cbv zeta.
  pose proof (scoreValidation_keeps normalized best second).
  keeps_auto.
Qed.

Lemma semanticSearch_keeps normalized vector :
  vector <> [] -> keeps R (semanticSearch E normalized vector).
Proof.
  intros Hv. unfold semanticSearch.
  apply (keeps_bind R); [apply (keeps_getEmbeddings R) | intros embeddings].
  apply (keeps_bind R); [apply (keeps_call R); exact Hv | intros matches].
  destruct matches as [|best rest]; [apply (keeps_ret R)|].
  apply multiMatch_keeps.
Qed.

Lemma embedCache_keeps normalized : keeps R (embedCache E normalized).
Proof.
  intros st. unfold embedCache, bind, cacheGet, cacheSet, call, ret.
  destruct (EMB_CACHE st !! normalized) as [vector|] eqn:Hc; simpl.
  - apply frame_refl.
  - destruct (embedText E normalized (world st)) as [[vector|err] w]; simpl.
    + eapply frame_trans.
      * apply (frame_call st w (CallEmbedText normalized)). exact I.
      * apply (frame_cache
                 (Build_State (memory st) (EMB_CACHE st) (EMBEDDINGS st) w
                    (CallEmbedText normalized :: trace st))).
        exact Hc.
    + apply (frame_call st w (CallEmbedText normalized)). exact I.
Qed.

Lemma embed_keeps normalized : keeps R (embed E normalized).
Proof.
  unfold embed.
  apply (keeps_bind R); [apply embedCache_keeps | intros vector].
  destruct vector as [|x vector]; simpl; [apply (keeps_ret R)|].
  apply semanticSearch_keeps. discriminate.
Qed.

Lemma spellFix_keeps finalUser : keeps R (spellFix E finalUser).
Proof.
  unfold spellFix. pose proof embed_keeps. keeps_auto.
Qed.

Lemma loadEmbeddingsOnce_keeps : keeps R (loadEmbeddingsOnce E).
Proof.
  intros st. unfold loadEmbeddingsOnce.
  destruct (0 <? length (EMBEDDINGS st))%nat; simpl; [apply frame_refl|].
  destruct (readEmbeddingsFile E (world st)) as [r w]. simpl.
  apply frame_load.
Qed.

Context `{!MemoryFrame R}.

Lemma followUpMemory_keeps question : keeps R (followUpMemory E question).
Proof.
  unfold followUpMemory.
  apply (keeps_bind R); [apply (keeps_getMemory R) | intros memory].
  apply (keeps_bind R); [|intros _; apply spellFix_keeps].
  intros st. apply frame_memory.
Qed.

Lemma aiRouter_keeps question panos projects :
  keeps R (aiRouter E question panos projects).
Proof.
  unfold aiRouter. pose proof (followUpMemory_keeps question). keeps_auto.
Qed.

Lemma handleChat_try_keeps req : keeps R (handleChat_try E req).
Proof.
  unfold handleChat_try. cbv zeta.
  apply (keeps_bind R); [apply loadEmbeddingsOnce_keeps | intros _].
  destruct (req_question req) as [| |b|x|q|]; simpl typeofString;
    simpl negb; rewrite ?orb_true_r, ?orb_false_r;
    try apply (keeps_ret R).
  destruct (truthy q); simpl;
    [apply aiRouter_keeps | apply (keeps_ret R)].
Qed.

Lemma handleChat_keeps req st : R st (snd (handleChat E req st)).
Proof.
  unfold handleChat, catchAll.
  pose proof (handleChat_try_keeps req st) as H.
  destruct (handleChat_try E req st) as [[r|err] st']; exact H.
Qed.

End Stages.

(** ** The LLM arbiter, the confidence arbiter and the embedding cache *)

Section Arbiter.
Context {W : Type} (E : Externals W).

(** [llmMeaningMatch] never throws: its own [catch] turns a failure of the
    service into [null]. *)
Lemma llmMeaningMatch_total (userQ candidateQ : jsstring) (st : State W) :
  exists verdict st',
    llmMeaningMatch E userQ candidateQ st = (Return verdict, st').
Proof.
  unfold llmMeaningMatch, try_catch, bind, call, ret.
  destruct (answerGeneralQuestion E _ (world st)) as [[out|err] w]; simpl.
  - repeat match goal with
           | |- context [if ?b then _ else _] => destruct b
           end; eauto.
  - eauto.
Qed.

Lemma llmMeaningMatch_verdict (userQ candidateQ : jsstring) (st : State W) :
  fst (llmMeaningMatch E userQ candidateQ st)
  = Return (triState E
              (fst (answerGeneralQuestion E
                      (promptHead ++ userQ ++ promptMiddle ++ candidateQ
                       ++ promptTail) (world st)))).
Proof.
  unfold llmMeaningMatch, try_catch, bind, call, ret, triState.
  destruct (answerGeneralQuestion E _ (world st)) as [[out|err] w];
    cbn [fst]; [|reflexivity].
  repeat match goal with
         | |- context [if ?b then _ else _] => destruct b
         end; reflexivity.
Qed.

(** C4.  [llmMeaningMatch] returns [true] (MATCH) exactly when the service
    returns a reply that, trimmed and lowercased, is ["yes"]; [false]
    (NO_MATCH) exactly when that text is ["no"]; and [null] (UNKNOWN) in any
    other case: when the service throws, on any other reply, so on a reply
    that echoes the fallback text, and on a [null], empty or blank reply. *)
Theorem llmMeaningMatch_tristate (userQ candidateQ : jsstring) (st : State W) :
  let prompt := promptHead ++ userQ ++ promptMiddle ++ candidateQ ++ promptTail in
  let reply := fst (answerGeneralQuestion E prompt (world st)) in
  let ans := fun out => toLowerCase E (trim (default [] out)) in
  exists verdict,
    fst (llmMeaningMatch E userQ candidateQ st) = Return verdict
    /\ (verdict = Some true <->
        exists out, reply = Return out /\ ans out = str "yes")
    /\ (verdict = Some false <->
        exists out, reply = Return out /\ ans out = str "no")
    /\ (verdict = None <->
        (exists err, reply = Throw err)
        \/ exists out, reply = Return out
                       /\ ans out <> str "yes" /\ ans out <> str "no")
    /\ (forall out,
          reply = Return out ->
          includes (ans out) (str "montforticse.in")
          || startsWith (ans out)
               (str "i don" ++ [8217] ++ str "t have that information") = true ->
          verdict = None)
    /\ (toLowerCase E [] = [] ->
        forall out,
          reply = Return out -> trim (default [] out) = [] -> verdict = None).
Proof.
  cbv zeta. rewrite llmMeaningMatch_verdict.
  destruct (fst (answerGeneralQuestion E _ (world st))) as [out|err];
    unfold triState, strictEq.
  - set (a := toLowerCase E (trim (default [] out))).
    eexists. split; [reflexivity|].
    case_bool_decide as Hyes; [|case_bool_decide as Hno].
    + split; [|split; [|split; [|split]]].
      * split; [|reflexivity]. intros _. exists out. auto.
      * split; [discriminate|].
        intros [o [Ho Hans]]. inversion Ho; subst o. fold a in Hans.
        rewrite Hyes in Hans. discriminate.
      * split; [discriminate|].
        intros [[err Herr]|[o [Ho [Hans _]]]]; [discriminate|].
        inversion Ho; subst o. contradiction.
      * intros o Ho. inversion Ho; subst o. fold a. rewrite Hyes.
        discriminate.
      * intros Hlow o Ho Hblank. inversion Ho; subst o.
        unfold a in Hyes. rewrite Hblank, Hlow in Hyes. discriminate.
    + split; [|split; [|split; [|split]]].
      * split; [discriminate|].
        intros [o [Ho Hans]]. inversion Ho; subst o. contradiction.
      * split; [|reflexivity]. intros _. exists out. auto.
      * split; [discriminate|].
        intros [[err Herr]|[o [Ho [_ Hans]]]]; [discriminate|].
        inversion Ho; subst o. contradiction.
      * intros o Ho. inversion Ho; subst o. fold a. rewrite Hno.
        discriminate.
      * intros Hlow o Ho Hblank. inversion Ho; subst o.
        unfold a in Hno. rewrite Hblank, Hlow in Hno. discriminate.
    + split; [|split; [|split; [|split]]].
      * split; [discriminate|].
        intros [o [Ho Hans]]. inversion Ho; subst o. contradiction.
      * split; [discriminate|].
        intros [o [Ho Hans]]. inversion Ho; subst o. contradiction.
      * split; [|reflexivity]. intros _. right. exists out. auto.
      * reflexivity.
      * reflexivity.
  - exists None. split; [reflexivity|].
    split; [|split; [|split; [|split]]].
    + split; [discriminate|]. intros [o [Ho _]]. discriminate.
    + split; [discriminate|]. intros [o [Ho _]]. discriminate.
    + split; [|reflexivity]. intros _. left. exists err. reflexivity.
    + reflexivity.
    + reflexivity.
Qed.

(** C1.  In steps 7 to 9, [low] holds exactly when [best._score < 0.11] and
    [ambi] exactly when a second candidate exists and
    [|best._score - second._score| < 0.06]; a score of exactly [0.11] is
    not low and a gap of exactly [0.06] is not ambiguous.  When neither
    holds, the response is the best candidate's answer tagged [semantic]
    and the state is the one before: no call has been made. *)
Theorem confidence_arbiter (normalized : jsstring) (best : MatchCandidate)
    (second : option MatchCandidate) (st : State W) :
  (low best = true <-> PrimFloat.ltb (_score best) 0.11%float = true)
  /\ (ambi best second = true <->
      exists s, second = Some s
                /\ PrimFloat.ltb
                     (PrimFloat.abs (PrimFloat.sub (_score best) (_score s)))
                     0.06%float = true)
  /\ (_score best = 0.11%float -> low best = false)
  /\ (forall s, second = Some s ->
        PrimFloat.abs (PrimFloat.sub (_score best) (_score s)) = 0.06%float ->
        ambi best second = false)
  /\ (low best = false -> ambi best second = false ->
      scoreValidation E normalized best second st
      = (Return (Answer (answer best) (Some Semantic)), st)).
Proof.
  repeat split.
  - intros H. exact H.
  - intros H. exact H.
  - unfold ambi. destruct second as [s|]; [|discriminate].
    intros H. exists s. split; [reflexivity | exact H].
  - intros [s [-> H]]. exact H.
  - intros H. unfold low. rewrite H. reflexivity.
  - intros s -> H. unfold ambi. rewrite H. reflexivity.
  - intros Hlow Hambi. unfold scoreValidation.
    rewrite Hlow, Hambi. reflexivity.
Qed.

(** C2.  When step 8 is entered ([low] or [ambi] holds), the verdict of
    [llmMeaningMatch] decides the response: [true] gives the best
    candidate's answer tagged [llm-validated], whatever its score; [false]
    gives the fallback tagged [llm-reject]; [null] gives the best
    candidate's answer tagged [semantic-llm-unavailable] exactly when [low]
    is false and [best._score >= 0.55], and the fallback tagged
    [llm-unavailable] otherwise. *)
Theorem llm_arbitration (normalized : jsstring) (best : MatchCandidate)
    (second : option MatchCandidate) (st : State W) :
  low best || ambi best second = true ->
  exists verdict response st',
    llmMeaningMatch E normalized (question best) st = (Return verdict, st')
    /\ scoreValidation E normalized best second st = (Return response, st')
    /\ (verdict = Some true ->
        response = Answer (answer best) (Some LlmValidated))
    /\ (verdict = Some false ->
        response = Answer smartFallback (Some LlmReject))
    /\ (verdict = None ->
        (response = Answer (answer best) (Some SemanticLlmUnavailable) <->
         low best = false /\ PrimFloat.leb 0.55%float (_score best) = true)
        /\ (~ (low best = false
               /\ PrimFloat.leb 0.55%float (_score best) = true) ->
            response = Answer smartFallback (Some LlmUnavailable))).
Proof.
  intros Hesc.
  destruct (llmMeaningMatch_total normalized (question best) st)
    as [verdict [st' Hllm]].
  unfold scoreValidation. rewrite Hesc. unfold bind. rewrite Hllm.
  exists verdict.
  destruct verdict as [[|]|].
  - eexists; eexists. split; [reflexivity|]. split; [reflexivity|].
    repeat split; intros; discriminate || reflexivity.
  - eexists; eexists. split; [reflexivity|]. split; [reflexivity|].
    repeat split; intros; discriminate || reflexivity.
  - unfold TRUST.
    destruct (low best); simpl;
      [|destruct (PrimFloat.leb 0.55%float (_score best))]; simpl;
      (eexists; eexists; split; [reflexivity|]; split; [reflexivity|]);
      repeat split; try discriminate; try reflexivity;
      try (intros [? ?]; discriminate);
      try (intros Hn; exfalso; apply Hn; split; reflexivity).
Qed.

(** C8.  The cache step of step 4, run twice on the same normalized query
    [Q]: from a state without an entry for [Q] and a service that returns a
    vector, the first run calls [embedText] once and stores the vector
    under [Q]; the second run returns the stored vector and leaves the
    state as it is, so the service has been called once in all.  So does
    every later run, in any state whose cache still holds what this one
    holds, also when the vector is empty. *)
Theorem embedCache_memoizes (Q : jsstring) (st : State W)
    (vector : list float) (w : W) :
  EMB_CACHE st !! Q = None ->
  embedText E Q (world st) = (Return vector, w) ->
  exists st1,
    embedCache E Q st = (Return vector, st1)
    /\ EMB_CACHE st1 !! Q = Some vector
    /\ trace st1 = CallEmbedText Q :: trace st
    /\ embedCache E Q st1 = (Return vector, st1)
    /\ length (List.filter isEmbedCall
                 (trace (snd (embedCache E Q (snd (embedCache E Q st))))))
       = S (length (List.filter isEmbedCall (trace st)))
    /\ (forall st2, cacheGrows st1 st2 ->
          embedCache E Q st2 = (Return vector, st2)).
Proof.
  intros Hmiss Hembed.
  unfold embedCache, bind, cacheGet, cacheSet, call, ret.
  rewrite Hmiss, Hembed. simpl.
  eexists. split; [reflexivity|]. simpl.
  rewrite lookup_insert_eq.
  repeat split.
  intros st2 Hgrow. rewrite (Hgrow Q vector); [reflexivity|].
  simpl. apply lookup_insert_eq.
Qed.

End Arbiter.

(** ** How a request moves through the steps *)

Section Requests.
Context {W : Type} (E : Externals W).

Lemma loadEmbeddingsOnce_run (st : State W) :
  loadEmbeddingsOnce E st = (Return tt, loaded E st).
Proof.
  unfold loaded, loadEmbeddingsOnce.
  destruct (0 <? length (EMBEDDINGS st))%nat; [reflexivity|].
  destruct (readEmbeddingsFile E (world st)); reflexivity.
Qed.

Lemma loaded_fields (st : State W) :
  memory (loaded E st) = memory st
  /\ EMB_CACHE (loaded E st) = EMB_CACHE st
  /\ trace (loaded E st) = trace st.
Proof.
  unfold loaded, loadEmbeddingsOnce.
  destruct (0 <? length (EMBEDDINGS st))%nat; [auto|].
  destruct (readEmbeddingsFile E (world st)); auto.
Qed.

Lemma catchAll_snd (m : M W Response) (st : State W) :
  snd (catchAll m st) = snd (m st).
Proof. unfold catchAll. destruct (m st) as [[r|err] st']; reflexivity. Qed.

Lemma strictEq_false (a b : jsstring) : a <> b -> strictEq a b = false.
Proof. intros H. unfold strictEq. apply bool_decide_eq_false. exact H. Qed.

Lemma strictEq_true (a b : jsstring) : a = b -> strictEq a b = true.
Proof. intros H. unfold strictEq. apply bool_decide_eq_true. exact H. Qed.

Lemma accepted_check (req : Request) (q : jsstring) :
  accepted req q ->
  negb (valueTruthy (req_question req)) || negb (typeofString (req_question req))
  = false.
Proof.
  intros [-> Hq]. destruct q; [contradiction | reflexivity].
Qed.

(** An accepted request is the router step on the trimmed question. *)
Lemma handleChat_accepted (req : Request) (q : jsstring) (st : State W) :
  accepted req q ->
  handleChat E req st
  = catchAll (aiRouter E (trim q) (panoNames req) (projectNames req))
      (loaded E st).
Proof.
  intros Hacc. unfold handleChat, catchAll, handleChat_try, bind.
  rewrite loadEmbeddingsOnce_run, (accepted_check req q Hacc).
  destruct Hacc as [-> _]. reflexivity.
Qed.

(** Any other request is answered at once. *)
Lemma handleChat_rejected (req : Request) (st : State W) :
  (forall q, ~ accepted req q) ->
  handleChat E req st = (requiredAnswer, loaded E st).
Proof.
  intros Hrej. unfold handleChat, catchAll, handleChat_try, bind.
  rewrite loadEmbeddingsOnce_run.
  destruct (req_question req) as [| |b|x|q|] eqn:Hq; simpl;
    rewrite ?orb_true_r; try reflexivity.
  destruct q as [|c q]; [reflexivity|].
  exfalso. apply (Hrej (c :: q)). split; [exact Hq | discriminate].
Qed.

(** The router step when the router answers [pano] or [project]. *)
Lemma aiRouter_bypass question panos projects (st : State W) ai w :
  aiIntentRouter E question panos projects (world st) = (Return ai, w) ->
  intent ai = str "pano" \/ intent ai = str "project" ->
  aiRouter E question panos projects st
  = (Return (Route (intent ai) (target ai)),
     Build_State (memory st) (EMB_CACHE st) (EMBEDDINGS st) w
       (CallRouter question panos projects :: trace st)).
Proof.
  intros Hr Hi. unfold aiRouter, bind, call, ret. rewrite Hr.
  destruct Hi as [Hi|Hi]; rewrite Hi; reflexivity.
Qed.

(** The router step when the router answers anything else. *)
Lemma aiRouter_passes question panos projects (st : State W) ai w :
  aiIntentRouter E question panos projects (world st) = (Return ai, w) ->
  intent ai <> str "pano" -> intent ai <> str "project" ->
  aiRouter E question panos projects st
  = spellFix E (mergeMemory (memory st) question)
      (Build_State question (EMB_CACHE st) (EMBEDDINGS st) w
         (CallRouter question panos projects :: trace st)).
Proof.
  intros Hr Hpano Hproject. unfold aiRouter, bind, call. rewrite Hr.
  rewrite (strictEq_false _ _ Hpano), (strictEq_false _ _ Hproject).
  reflexivity.
Qed.

(** A routed request is steps 2 and on, run on the merged query. *)
Lemma handleChat_routed req q st ai w :
  routed E req q st ai w ->
  handleChat E req st
  = catchAll (spellFix E (mergeMemory (memory st) (trim q)))
      (pipelineState E req q st w).
Proof.
  intros (Hacc & Hr & Hpano & Hproject).
  rewrite (handleChat_accepted req q st Hacc).
  unfold catchAll.
  rewrite (aiRouter_passes _ _ _ _ ai w Hr Hpano Hproject).
  unfold pipelineState.
  destruct (loaded_fields st) as (-> & -> & ->). reflexivity.
Qed.

Lemma spellFix_normalized finalUser (st : State W) corrected w2 normalized w3 :
  correctSpelling E finalUser (world st) = (Return corrected, w2) ->
  normalizeToMeaning E corrected w2 = (Return normalized, w3) ->
  spellFix E finalUser st
  = embed E normalized
      (Build_State (memory st) (EMB_CACHE st) (EMBEDDINGS st) w3
         (CallNormalizeToMeaning corrected :: CallCorrectSpelling finalUser
          :: trace st)).
Proof.
  intros Hs Hn. unfold spellFix, bind, call. rewrite Hs. simpl.
  rewrite Hn. reflexivity.
Qed.

(** A request that gets to step 4 is step 4 and on. *)
Lemma handleChat_atEmbed req st normalized st3 :
  atEmbed E req st normalized st3 ->
  handleChat E req st = catchAll (embed E normalized) st3.
Proof.
  intros (q & ai & w1 & corrected & w2 & w3 & Hrouted & Hs & Hn & ->).
  rewrite (handleChat_routed req q st ai w1 Hrouted).
  unfold catchAll, pipelineState.
  rewrite (spellFix_normalized _ _ corrected w2 normalized w3); auto.
Qed.

(** The first call of steps 2 and on is [correctSpelling], on the query it
    was given; the calls that follow come later in the record. *)
Lemma spellFix_trace finalUser (st : State W) :
  exists evs,
    trace (snd (spellFix E finalUser st))
    = evs ++ CallCorrectSpelling finalUser :: trace st.
Proof.
  unfold spellFix, bind at 1, call at 1.
  destruct (correctSpelling E finalUser (world st)) as [[corrected|err] w2].
  - match goal with
    | |- context [bind ?m ?k ?s] =>
        destruct (keeps_bind (emits (fun _ => True)) m k
                    ltac:(apply (keeps_call (emits (fun _ => True))); exact I)
                    ltac:(intros a; apply (embed_keeps E (emits (fun _ => True))))
                    s) as [evs [Hevs _]]
    end.
    exists evs. exact Hevs.
  - exists []. reflexivity.
Qed.

(** The router is the first call of the router step. *)
Lemma aiRouter_trace question panos projects (st : State W) :
  exists evs,
    trace (snd (aiRouter E question panos projects st))
    = evs ++ CallRouter question panos projects :: trace st.
Proof.
  unfold aiRouter, bind at 1, call at 1.
  destruct (aiIntentRouter E question panos projects (world st))
    as [[ai|err] w]; [|exists []; reflexivity].
  match goal with
  | |- context [snd (?m ?s)] =>
      assert (Hk : keeps (emits (fun _ => True)) m);
      [|destruct (Hk s) as [evs [Hevs _]]; exists evs; exact Hevs]
  end.
  pose proof (followUpMemory_keeps E (emits (fun _ => True)) question).
  keeps_auto.
Qed.

(** A routed request leaves the trimmed question in the memory, and its
    first call after the router is [correctSpelling] on the merged query. *)
Lemma routed_run req q st ai w :
  routed E req q st ai w ->
  memory (snd (handleChat E req st)) = trim q
  /\ handleChat E req st
     = catchAll (spellFix E (mergeMemory (memory st) (trim q)))
         (pipelineState E req q st w)
  /\ exists evs,
       trace (snd (handleChat E req st))
       = evs ++ CallCorrectSpelling (mergeMemory (memory st) (trim q))
             :: CallRouter (trim q) (panoNames req) (projectNames req)
             :: trace st.
Proof.
  intros Hrouted.
  pose proof (handleChat_routed req q st ai w Hrouted) as Hrun.
  split; [|split; [exact Hrun|]]; rewrite Hrun, catchAll_snd.
  - apply (spellFix_keeps E sameMemory).
  - apply spellFix_trace.
Qed.

End Requests.

(** ** The pipeline, request by request *)

Lemma descending_filter (keep : MatchCandidate -> bool) matches :
  descending matches -> descending (List.filter keep matches).
Proof.
  unfold descending. induction 1 as [|m ms Hs IH Hall]; simpl.
  - constructor.
  - destruct (keep m); [|exact IH].
    constructor; [exact IH|].
    rewrite List.Forall_forall in *. intros x Hx.
    apply Hall. apply List.filter_In in Hx. tauto.
Qed.

Section Pipeline.
Context {W : Type} (E : Externals W).

(** The cache step records at most the call to [embedText]. *)
Lemma embedCache_trace normalized (st : State W) :
  trace (snd (embedCache E normalized st)) = trace st
  \/ trace (snd (embedCache E normalized st))
     = CallEmbedText normalized :: trace st.
Proof.
  unfold embedCache, bind, cacheGet, cacheSet, call, ret.
  destruct (EMB_CACHE st !! normalized); simpl; [left; reflexivity|].
  destruct (embedText E normalized (world st)) as [[vector|err] w];
    right; reflexivity.
Qed.

(** A request never removes an entry from the cache, whatever its outcome. *)
Lemma handleChat_cache_grows (req : Request) (st : State W) :
  cacheGrows st (snd (handleChat E req st)).
Proof. apply (handleChat_keeps E cacheGrows). Qed.

(** C5.  For a request that the router sends on, with [question] the
    question that enters the pipeline (the request's string after [trim])
    and [memory] the stored memory: the query given to normalization is
    [memory + " " + question] when [memory] is non-empty and [question] has
    at most 4 code units, and [question] itself otherwise.  The rest of the
    request is spelling correction, normalization and what follows, run on
    that query: [correctSpelling] is the call made right after the router,
    on that query, and [normalizeToMeaning] follows on what it returns. *)
Theorem followUp_memory_merge (req : Request) (q : jsstring) (st : State W)
    (ai : AiIntent) (w : W) :
  routed E req q st ai w ->
  let question := trim q in
  let finalUser := mergeMemory (memory st) question in
  (memory st <> [] -> (strlen question <= 4)%nat ->
   finalUser = memory st ++ str " " ++ question)
  /\ (memory st = [] \/ (4 < strlen question)%nat -> finalUser = question)
  /\ handleChat E req st
     = catchAll (spellFix E finalUser) (pipelineState E req q st w)
  /\ (exists evs,
        trace (snd (handleChat E req st))
        = evs ++ CallCorrectSpelling finalUser
              :: CallRouter question (panoNames req) (projectNames req)
              :: trace st)
  /\ (forall corrected w2,
        correctSpelling E finalUser w = (Return corrected, w2) ->
        exists evs,
          trace (snd (handleChat E req st))
          = evs ++ CallNormalizeToMeaning corrected
                :: CallCorrectSpelling finalUser
                :: CallRouter question (panoNames req) (projectNames req)
                :: trace st).
Proof.
  intros Hrouted question finalUser.
  pose proof (handleChat_routed E req q st ai w Hrouted) as Hrun.
  fold question in Hrun. fold finalUser in Hrun.
  split; [|split; [|split; [exact Hrun|split]]].
  - intros Hmem Hlen. unfold finalUser, mergeMemory.
    destruct (memory st) as [|c m]; [contradiction|].
    apply Nat.leb_le in Hlen. rewrite Hlen. reflexivity.
  - intros [Hmem|Hlen]; unfold finalUser, mergeMemory.
    + rewrite Hmem. reflexivity.
    + apply Nat.leb_gt in Hlen. rewrite Hlen, andb_false_r. reflexivity.
  - rewrite Hrun, catchAll_snd.
    destruct (spellFix_trace E finalUser (pipelineState E req q st w))
      as [evs Hevs].
    exists evs. exact Hevs.
  - intros corrected w2 Hspell. rewrite Hrun, catchAll_snd.
    unfold spellFix, bind at 1, call at 1.
    change (world (pipelineState E req q st w)) with w. rewrite Hspell.
    unfold bind at 1, call at 1. cbn [world].
    destruct (normalizeToMeaning E corrected w2) as [[normalized|err] w3].
    + destruct (embed_keeps E (emits (fun _ => True)) normalized
                  (Build_State
                     (memory (pipelineState E req q st w))
                     (EMB_CACHE (pipelineState E req q st w))
                     (EMBEDDINGS (pipelineState E req q st w)) w3
                     (CallNormalizeToMeaning corrected
                      :: CallCorrectSpelling finalUser
                      :: trace (pipelineState E req q st w))))
        as [evs [Hevs _]].
      exists evs. exact Hevs.
    + exists []. reflexivity.
Qed.

(** C6, as the code has it.  For a request with a non-empty question string
    on which the router returns: when the router's intent is neither [pano]
    nor [project], the memory after the request is the question that entered
    the pipeline (the request's string after [trim], not the merged query),
    whatever the later steps do, fallbacks and errors included; when the
    router answers the request, the memory is left as it was. *)
Theorem memory_after_request (req : Request) (q : jsstring) (st : State W)
    (ai : AiIntent) (w : W) :
  accepted req q ->
  aiIntentRouter E (trim q) (panoNames req) (projectNames req)
    (world (loaded E st)) = (Return ai, w) ->
  memory (snd (handleChat E req st))
  = if strictEq (intent ai) (str "pano")
       || strictEq (intent ai) (str "project")
    then memory st
    else trim q.
Proof.
  intros Hacc Hr.
  destruct (strictEq (intent ai) (str "pano")
            || strictEq (intent ai) (str "project")) eqn:Hby.
  - rewrite (handleChat_accepted E req q st Hacc), catchAll_snd.
    rewrite (aiRouter_bypass E _ _ _ _ ai w Hr).
    + simpl. apply (loaded_fields E st).
    + apply orb_true_iff in Hby. unfold strictEq in Hby.
      rewrite !bool_decide_eq_true in Hby. exact Hby.
  - apply orb_false_iff in Hby. unfold strictEq in Hby.
    rewrite !bool_decide_eq_false in Hby. destruct Hby as [Hpano Hproject].
    rewrite (handleChat_routed E req q st ai w);
      [|split; [exact Hacc | repeat split; assumption]].
    rewrite catchAll_snd.
    apply (spellFix_keeps E sameMemory).
Qed.

(** C7, as the code has it.  The matcher is never called on a vector of
    length zero: every call to [findTopMatches] that a request makes is on
    a non-empty vector, and a request that gets to step 4 and obtains there
    a vector of length zero, from the cache or from [embedText], ends with
    the fallback answer tagged [no-vector], in the state the cache step
    left, without any call to the matcher. *)
Theorem empty_vector_never_ranked (req : Request) (st : State W) :
  emits okEvent st (snd (handleChat E req st))
  /\ (forall normalized st3 st4,
        atEmbed E req st normalized st3 ->
        embedCache E normalized st3 = (Return [], st4) ->
        handleChat E req st = (Answer smartFallback (Some NoVector), st4)
        /\ exists evs,
             trace st4 = evs ++ trace st
             /\ Forall (fun e => isMatcherCall e = false) evs).
Proof.
  split; [apply (handleChat_keeps E (emits okEvent))|].
  intros normalized st3 st4 Hat Hcache.
  rewrite (handleChat_atEmbed E req st normalized st3 Hat).
  split.
  - unfold catchAll, embed, bind. rewrite Hcache. reflexivity.
  - pose proof (embedCache_trace normalized st3) as Htr.
    rewrite Hcache in Htr. cbn [snd] in Htr.
    destruct Hat as (q & ai & w1 & corrected & w2 & w3 & _ & _ & _ & ->).
    cbn [trace] in Htr.
    destruct Htr as [-> | ->].
    + eexists [_; _; _]. split; [reflexivity|].
      repeat constructor.
    + eexists [_; _; _; _]. split; [reflexivity|].
      repeat constructor.
Qed.

(** C3.  For a request that gets to step 5 with a normalized query that
    [split(/\s+/)] leaves in one piece: if a ranked candidate has a score
    of at least [0.08], the response is tagged [multi-match]; its text is
    the answers of the candidates with a score of at least [0.08], each
    after the bullet and a space, in the order of the ranking (descending
    score, when the matcher ranks so), joined by a blank line; and the
    request makes no call to the language model. *)
Theorem single_token_multi_match (req : Request) (st : State W)
    (normalized : jsstring) (st3 st4 : State W) (vector : list float)
    (matches : list MatchCandidate) (w5 : W) :
  atEmbed E req st normalized st3 ->
  embedCache E normalized st3 = (Return vector, st4) ->
  vector <> [] ->
  findTopMatches E vector (EMBEDDINGS st4) normalized 5 (world st4)
  = (Return matches, w5) ->
  tokenCount normalized = 1%nat ->
  existsb qualifies matches = true ->
  let chosen := List.filter qualifies matches in
  handleChat E req st
  = (Answer (join (nl ++ nl) (map bulletLine chosen)) (Some MultiMatch),
     Build_State (memory st4) (EMB_CACHE st4) (EMBEDDINGS st4) w5
       (CallFindTopMatches vector normalized 5 :: trace st4))
  /\ (forall m, In m chosen <->
                In m matches /\ PrimFloat.leb 0.08%float (_score m) = true)
  /\ (descending matches -> descending chosen)
  /\ (exists evs,
        trace st4 = evs ++ trace st
        /\ Forall (fun e => isLlmCall e = false)
             (CallFindTopMatches vector normalized 5 :: evs)).
Proof.
  intros Hat Hcache Hvec Hrank Hone Hsome chosen.
  split; [|split; [|split]].
  - rewrite (handleChat_atEmbed E req st normalized st3 Hat).
    unfold catchAll, embed, bind at 1. rewrite Hcache.
    destruct vector as [|x vector]; [contradiction|]. cbn [length Nat.eqb].
    unfold semanticSearch, bind, getEmbeddings, call. rewrite Hrank.
    destruct matches as [|best rest]; [discriminate|].
    unfold multiMatch. rewrite Hone. cbn [Nat.leb].
    rewrite multiMatchList_truthy, Hsome. reflexivity.
  - intros m. unfold chosen. rewrite List.filter_In. reflexivity.
  - apply descending_filter.
  - pose proof (embedCache_trace normalized st3) as Htr.
    rewrite Hcache in Htr. cbn [snd] in Htr.
    destruct Hat as (q & ai & w1 & corrected & w2 & w3 & _ & _ & _ & ->).
    cbn [trace] in Htr.
    destruct Htr as [-> | ->].
    + eexists [_; _; _]. split; [reflexivity|].
      repeat constructor.
    + eexists [_; _; _; _]. split; [reflexivity|].
      repeat constructor.
Qed.

End Pipeline.

(** ** The shape of the responses and the top-level [catch] *)

Ltac returns_step :=
  match goal with
  | H : forall x, returns ?P _ |- returns ?P _ => apply H
  | |- returns _ (ret _) =>
      apply returns_ret; simpl; solve [auto | intros; discriminate]
  | |- returns _ (bind _ _) => apply returns_bind; intros ?
  | |- returns _ (if ?b then _ else _) => destruct b
  | |- returns _ (match ?x with _ => _ end) => destruct x
  end.

Section TopLevel.
Context {W : Type} (E : Externals W).

Lemma aiRouter_returns question panos projects :
  returns pipelineResponse (aiRouter E question panos projects).
Proof.
  unfold aiRouter, followUpMemory, spellFix, embed, semanticSearch,
    multiMatch, scoreValidation.
  cbv zeta. repeat returns_step.
Qed.

(** C9.  [handleChat] is a total function of the request and the state: it
    hands a response to its caller on every request, whatever the
    collaborators do.  The response is well formed; whenever the [try]
    block throws, at any step, the response is the text of [smartFallback]
    tagged [error]; otherwise it is what the [try] block returned. *)
Theorem handleChat_never_raises (req : Request) (st : State W) :
  exists response st',
    handleChat E req st = (response, st')
    /\ wellFormed response
    /\ (forall err st1,
          handleChat_try E req st = (Throw err, st1) ->
          response = Answer smartFallback (Some Error) /\ st' = st1)
    /\ (forall r st1,
          handleChat_try E req st = (Return r, st1) ->
          response = r /\ st' = st1).
Proof.
  unfold handleChat, catchAll.
  destruct (handleChat_try E req st) as [[r|err] st1] eqn:Hrun.
  - exists r, st1. split; [reflexivity|]. split; [|split].
    + revert Hrun. unfold handleChat_try, bind.
      rewrite loadEmbeddingsOnce_run. cbv zeta.
      destruct (negb (valueTruthy (req_question req))
                || negb (typeofString (req_question req))).
      * intros Hrun. inversion Hrun. left. reflexivity.
      * destruct (req_question req) as [| |b|x|q|];
          try (intros Hrun; inversion Hrun; left; reflexivity).
        intros Hrun. right. eapply aiRouter_returns. exact Hrun.
    + intros err st2 H. discriminate.
    + intros r' st2 H. inversion H. auto.
  - exists (Answer smartFallback (Some Error)), st1.
    split; [reflexivity|]. split; [|split].
    + right. simpl. auto.
    + intros err' st2 H. inversion H. auto.
    + intros r st2 H. discriminate.
Qed.

(** The collaborators whose failure nothing but the top-level [catch]
    handles: the router, the two normalization calls, the embedding service
    and the matcher. *)
Lemma router_failure req q st err w :
  accepted req q ->
  aiIntentRouter E (trim q) (panoNames req) (projectNames req)
    (world (loaded E st)) = (Throw err, w) ->
  fst (handleChat E req st) = Answer smartFallback (Some Error).
Proof.
  intros Hacc Hr. rewrite (handleChat_accepted E req q st Hacc).
  unfold catchAll, aiRouter, bind, call. rewrite Hr. reflexivity.
Qed.

Lemma correctSpelling_failure req q st ai w err w2 :
  routed E req q st ai w ->
  correctSpelling E (mergeMemory (memory st) (trim q)) w = (Throw err, w2) ->
  fst (handleChat E req st) = Answer smartFallback (Some Error).
Proof.
  intros Hrouted Hs. rewrite (handleChat_routed E req q st ai w Hrouted).
  unfold catchAll, spellFix, bind, call, pipelineState. cbn [world].
  rewrite Hs. reflexivity.
Qed.

Lemma normalizeToMeaning_failure req q st ai w corrected w2 err w3 :
  routed E req q st ai w ->
  correctSpelling E (mergeMemory (memory st) (trim q)) w
  = (Return corrected, w2) ->
  normalizeToMeaning E corrected w2 = (Throw err, w3) ->
  fst (handleChat E req st) = Answer smartFallback (Some Error).
Proof.
  intros Hrouted Hs Hn. rewrite (handleChat_routed E req q st ai w Hrouted).
  unfold catchAll, spellFix, bind, call, pipelineState. cbn [world].
  rewrite Hs. cbn [world]. rewrite Hn. reflexivity.
Qed.

Lemma embedText_failure req st normalized st3 err w :
  atEmbed E req st normalized st3 ->
  EMB_CACHE st3 !! normalized = None ->
  embedText E normalized (world st3) = (Throw err, w) ->
  fst (handleChat E req st) = Answer smartFallback (Some Error).
Proof.
  intros Hat Hmiss He. rewrite (handleChat_atEmbed E req st normalized st3 Hat).
  unfold catchAll, embed, embedCache, bind, cacheGet, call.
  rewrite Hmiss, He. reflexivity.
Qed.

Lemma findTopMatches_failure req st normalized st3 st4 x vector err w :
  atEmbed E req st normalized st3 ->
  embedCache E normalized st3 = (Return (x :: vector), st4) ->
  findTopMatches E (x :: vector) (EMBEDDINGS st4) normalized 5 (world st4)
  = (Throw err, w) ->
  fst (handleChat E req st) = Answer smartFallback (Some Error).
Proof.
  intros Hat Hc Hm. rewrite (handleChat_atEmbed E req st normalized st3 Hat).
  unfold catchAll, embed, bind at 1. rewrite Hc. cbn [length Nat.eqb].
  unfold semanticSearch, bind, getEmbeddings, call. rewrite Hm. reflexivity.
Qed.

End TopLevel.

(** ** Runs of the controller against scripted worlds *)

Module Runs.
Import Script.

(** The boundaries of step 7. *)
Example low_at_MIN : low (candidate "q" "a" 0.11%float) = false.
Proof. reflexivity. Qed.

Example low_below_MIN : low (candidate "q" "a" 0.1099%float) = true.
Proof. reflexivity. Qed.

Example ambi_at_GAP :
  PrimFloat.abs (PrimFloat.sub 0.06%float 0%float) = 0.06%float
  /\ ambi (candidate "q" "a" 0.06%float) (Some (candidate "r" "b" 0%float))
     = false.
Proof. split; reflexivity. Qed.

Example ambi_without_second : ambi fees None = false.
Proof. reflexivity. Qed.

(** The boundary of the trust fallback. *)
Example trust_at_TRUST :
  PrimFloat.leb TRUST 0.55%float = true
  /\ PrimFloat.leb TRUST 0.549%float = false.
Proof. split; reflexivity. Qed.

(** Two requests in a row, ["school"] then ["fees"]: the second one has
    ["school fees"] corrected and normalized. *)
Example school_then_fees :
  let st1 := snd (handleChat (externals school) (request "school") initial) in
  let st2 := snd (handleChat (externals school) (request "fees") st1) in
  memory st1 = str "school"
  /\ memory st2 = str "fees"
  /\ In (CallCorrectSpelling (str "school fees")) (trace st2)
  /\ In (CallNormalizeToMeaning (str "school fees")) (trace st2).
Proof. vm_compute. intuition. Qed.

(** Replies of the model and their verdicts. *)
Example verdict_yes :
  triState (externals school) (Return (Some (str "  YES" ++ nl))) = Some true.
Proof. reflexivity. Qed.

Example verdict_no :
  triState (externals school) (Return (Some (str "No"))) = Some false.
Proof. reflexivity. Qed.

Example verdict_other :
  triState (externals school) (Return (Some (str "yes."))) = None
  /\ triState (externals school) (Return None) = None
  /\ triState (externals school) (Return (Some smartFallback)) = None
  /\ triState (externals school) (Throw (str "429")) = None.
Proof. repeat split; reflexivity. Qed.

(** *** The theorems at concrete requests *)

Ltac differ := let H := fresh in intro H; vm_compute in H; discriminate H.

Lemma confidence_arbiter_witness :
  low fees = false
  /\ ambi fees (Some hostel) = false
  /\ scoreValidation (externals school) (str "school fees") fees (Some hostel)
       initial
     = (Return (Answer (str "Fees are paid per term.") (Some Semantic)),
        initial).
Proof.
  split; [reflexivity|]. split; [reflexivity|].
  apply (confidence_arbiter (externals school) (str "school fees") fees
           (Some hostel) initial); reflexivity.
Defined.

Lemma llm_arbitration_witness :
  low fees || ambi fees (Some uniform) = true
  /\ exists st',
       scoreValidation (externals school) (str "school fees") fees
         (Some uniform) initial
       = (Return (Answer (str "Fees are paid per term.") (Some LlmValidated)),
          st').
Proof.
  split; [reflexivity|].
  destruct (llm_arbitration (externals school) (str "school fees") fees
              (Some uniform) initial eq_refl)
    as (verdict & response & st' & Hllm & Hrun & Hyes & _).
  exists st'. rewrite Hrun. rewrite (Hyes ltac:(vm_compute in Hllm; congruence)).
  reflexivity.
Defined.

Lemma llmMeaningMatch_tristate_witness :
  toLowerCase (externals school) [] = []
  /\ fst (llmMeaningMatch (externals school) (str "fees")
            (str "what are the fees") initial)
     = Return (Some true).
Proof.
  split; [reflexivity|].
  destruct (llmMeaningMatch_tristate (externals school) (str "fees")
              (str "what are the fees") initial)
    as (verdict & Hrun & Hyes & _).
  rewrite Hrun. f_equal. apply Hyes.
  exists (Some (str "yes")). split; reflexivity.
Defined.

Lemma embedCache_memoizes_witness :
  EMB_CACHE initial !! str "fees" = None
  /\ embedText (externals school) (str "fees") (world initial)
     = (Return [1%float; 0%float], 1%nat)
  /\ exists st1,
       embedCache (externals school) (str "fees") initial
       = (Return [1%float; 0%float], st1)
       /\ embedCache (externals school) (str "fees") st1
          = (Return [1%float; 0%float], st1)
       /\ trace st1 = [CallEmbedText (str "fees")].
Proof.
  split; [reflexivity|]. split; [reflexivity|].
  destruct (embedCache_memoizes (externals school) (str "fees") initial
              [1%float; 0%float] 1%nat eq_refl eq_refl)
    as (st1 & Hfirst & _ & Htrace & Hsecond & _ & _).
  exists st1. split; [exact Hfirst|]. split; [exact Hsecond | exact Htrace].
Defined.

Lemma school_routed (q : string) (st : State nat) :
  str q <> [] ->
  routed (externals school) (request q) (str q) st
    {| intent := str "school"; target := None |}
    (S (world (loaded (externals school) st))).
Proof.
  intros Hq. split; [split; [reflexivity | exact Hq]|].
  split; [reflexivity|]. split; differ.
Qed.

Lemma followUp_memory_merge_witness :
  routed (externals school) (request "fees") (str "fees") remembered
    {| intent := str "school"; target := None |} 2%nat
  /\ exists evs,
       trace (snd (handleChat (externals school) (request "fees") remembered))
       = evs ++ [CallCorrectSpelling (str "school fees");
                 CallRouter (str "fees") [] []].
Proof.
  split; [apply (school_routed "fees" remembered); differ|].
  destruct (followUp_memory_merge (externals school) (request "fees")
              (str "fees") remembered
              {| intent := str "school"; target := None |} 2%nat
              (school_routed "fees" remembered ltac:(differ)))
    as (_ & _ & _ & Htrace & _).
  exact Htrace.
Defined.

Lemma memory_after_request_witness :
  accepted (request "fees") (str "fees")
  /\ memory (snd (handleChat (externals school) (request "fees") remembered))
     = str "fees".
Proof.
  assert (Hacc : accepted (request "fees") (str "fees"))
    by (split; [reflexivity | differ]).
  split; [exact Hacc|].
  exact (memory_after_request (externals school) (request "fees") (str "fees")
           remembered {| intent := str "school"; target := None |} 2%nat
           Hacc eq_refl).
Defined.

(** C6 as it was stated: a request answered by the router leaves the
    previous question in the memory. *)
Lemma memory_not_overwritten_on_bypass :
  fst (handleChat (externals tour) (request "gallery") remembered)
  = Route (str "pano") (Some (str "gallery"))
  /\ memory (snd (handleChat (externals tour) (request "gallery") remembered))
     = str "school"
  /\ memory (snd (handleChat (externals tour) (request "gallery") remembered))
     <> str "gallery".
Proof.
  split; [reflexivity|]. split; [reflexivity | differ].
Qed.

Lemma school_atEmbed (E : Script) (q : string) (st : State nat) :
  routerSays E = routerSays school ->
  spellSays E = spellSays school ->
  str q <> [] ->
  forall normalized,
    normalizeSays E (mergeMemory (memory st) (trim (str q)))
    = Return normalized ->
    atEmbed (externals E) (request q) st normalized
      (Build_State (trim (str q)) (EMB_CACHE st)
         (EMBEDDINGS (loaded (externals E) st))
         (S (S (S (world (loaded (externals E) st)))))
         ([CallNormalizeToMeaning (mergeMemory (memory st) (trim (str q)));
           CallCorrectSpelling (mergeMemory (memory st) (trim (str q)));
           CallRouter (trim (str q)) [] []] ++ trace st)).
Proof.
  intros Hr Hs Hq normalized Hn.
  exists (str q), {| intent := str "school"; target := None |},
    (S (world (loaded (externals E) st))),
    (mergeMemory (memory st) (trim (str q))),
    (S (S (world (loaded (externals E) st)))),
    (S (S (S (world (loaded (externals E) st))))).
  split; [|split; [|split]].
  - split; [split; [reflexivity | exact Hq]|].
    split; [simpl; rewrite Hr; reflexivity|]. split; differ.
  - simpl. rewrite Hs. reflexivity.
  - simpl. rewrite Hn. reflexivity.
  - reflexivity.
Qed.

(** C7 as it was stated: the normalized query is [""] and [embedText] is
    called on it all the same. *)
Lemma empty_query_is_embedded :
  trace (snd (handleChat (externals terse) (request "hm") initial))
  = [CallEmbedText [];
     CallNormalizeToMeaning (str "hm");
     CallCorrectSpelling (str "hm");
     CallRouter (str "hm") [] []]
  /\ fst (handleChat (externals terse) (request "hm") initial)
     = Answer smartFallback (Some NoVector).
Proof. split; reflexivity. Qed.

Lemma empty_vector_never_ranked_witness :
  exists st3 st4,
    atEmbed (externals terse) (request "hm") initial [] st3
    /\ embedCache (externals terse) [] st3 = (Return [], st4)
    /\ handleChat (externals terse) (request "hm") initial
       = (Answer smartFallback (Some NoVector), st4).
Proof.
  pose proof (school_atEmbed terse "hm" initial eq_refl eq_refl
                ltac:(differ) [] eq_refl) as Hat.
  match type of Hat with
  | atEmbed _ _ _ _ ?st3 =>
      exists st3, (snd (embedCache (externals terse) [] st3))
  end.
  split; [exact Hat|]. split; [reflexivity|].
  destruct (empty_vector_never_ranked (externals terse) (request "hm")
              initial) as [_ Hstep].
  exact (proj1 (Hstep _ _ _ Hat eq_refl)).
Defined.

Lemma single_token_multi_match_witness :
  tokenCount (str "fees") = 1%nat
  /\ existsb qualifies [fees; hostel;
                        candidate "where is the canteen" "Next to the hall."
                          0.05%float] = true
  /\ fst (handleChat (externals school) (request "fees") initial)
     = Answer ([8226; 32] ++ str "Fees are paid per term." ++ nl ++ nl
               ++ [8226; 32] ++ str "Hostel fees are separate.")
         (Some MultiMatch).
Proof.
  split; [reflexivity|]. split; [reflexivity|].
  pose proof (school_atEmbed school "fees" initial eq_refl eq_refl
                ltac:(differ) (str "fees") eq_refl) as Hat.
  match type of Hat with
  | atEmbed _ _ _ _ ?st3 =>
      destruct (single_token_multi_match (externals school) (request "fees")
                  initial (str "fees") st3
                  (snd (embedCache (externals school) (str "fees") st3))
                  [1%float; 0%float]
                  [fees; hostel;
                   candidate "where is the canteen" "Next to the hall."
                     0.05%float]
                  6%nat Hat eq_refl ltac:(discriminate) eq_refl eq_refl
                  eq_refl)
        as (Hrun & _)
  end.
  rewrite Hrun. reflexivity.
Defined.

Lemma handleChat_never_raises_witness :
  handleChat_try (externals down) (request "fees") initial
  = (Throw (str "429"),
     Build_State (str "fees") ∅ [] 3%nat
       [CallCorrectSpelling (str "fees"); CallRouter (str "fees") [] []])
  /\ fst (handleChat (externals down) (request "fees") initial)
     = Answer smartFallback (Some Error).
Proof.
  split; [reflexivity|].
  destruct (handleChat_never_raises (externals down) (request "fees") initial)
    as (response & st' & Hrun & _ & Hthrow & _).
  rewrite Hrun.
  exact (proj1 (Hthrow _ _ eq_refl)).
Defined.

End Runs.

(** ** What the steps leave alone *)

Section QuietRules.
Context {W : Type}.

#[export] Instance onlyCalls_quiet : Quiet (@onlyCalls W).
Proof.
  split; unfold onlyCalls; simpl.
  - auto.
  - intros st1 st2 st3 (H1 & H2 & H3) (H4 & H5 & H6).
    repeat split; congruence.
  - auto.
Qed.

#[export] Instance sameStore_quiet : Quiet (@sameStore W).
Proof. split; unfold sameStore; simpl; intros; congruence. Qed.

#[export] Instance sameStore_writes : Writes (@sameStore W).
Proof. split; unfold sameStore; simpl; intros; reflexivity. Qed.

Context (R : State W -> State W -> Prop) `{!Quiet R}.

Lemma quiet_ret {A} (a : A) : keeps R (ret a).
Proof. intros st. apply quiet_refl. Qed.

Lemma quiet_bind {A B} (m : M W A) (k : A -> M W B) :
  keeps R m -> (forall a, keeps R (k a)) -> keeps R (bind m k).
Proof.
  intros Hm Hk st. unfold bind. specialize (Hm st).
  destruct (m st) as [[a|err] st1]; simpl in *; [|exact Hm].
  eapply quiet_trans; [exact Hm | apply Hk].
Qed.

Lemma quiet_try_catch {A} (m : M W A) (h : jsstring -> M W A) :
  keeps R m -> (forall err, keeps R (h err)) -> keeps R (try_catch m h).
Proof.
  intros Hm Hh st. unfold try_catch. specialize (Hm st).
  destruct (m st) as [[a|err] st1]; simpl in *; [exact Hm|].
  eapply quiet_trans; [exact Hm | apply Hh].
Qed.

Lemma quiet_calls {A} (ev : Event) (f : W -> Outcome A * W) :
  keeps R (call ev f).
Proof.
  intros st. unfold call. destruct (f (world st)) as [r w]. apply quiet_call.
Qed.

Lemma quiet_getMemory : keeps R getMemory.
Proof. intros st. apply quiet_refl. Qed.

Lemma quiet_getEmbeddings : keeps R getEmbeddings.
Proof. intros st. apply quiet_refl. Qed.

Lemma quiet_cacheGet key : keeps R (cacheGet key).
Proof. intros st. apply quiet_refl. Qed.

End QuietRules.

Ltac quiet_step :=
  match goal with
  | H : keeps ?R ?m |- keeps ?R ?m => exact H
  | H : forall x, keeps ?R _ |- keeps ?R _ => apply H
  | |- keeps ?R (ret _) => apply (quiet_ret R)
  | |- keeps ?R getMemory => apply (quiet_getMemory R)
  | |- keeps ?R getEmbeddings => apply (quiet_getEmbeddings R)
  | |- keeps ?R (cacheGet _) => apply (quiet_cacheGet R)
  | |- keeps ?R (call _ _) => apply (quiet_calls R)
  | |- keeps ?R (bind _ _) => apply (quiet_bind R); [|intros ?]
  | |- keeps ?R (try_catch _ _) => apply (quiet_try_catch R); [|intros ?]
  | |- keeps _ (if ?b then _ else _) => destruct b
  | |- keeps _ (match ?x with _ => _ end) => destruct x
  end.

Section QuietStages.
Context {W : Type} (E : Externals W).
Context (R : State W -> State W -> Prop) `{!Quiet R}.

Lemma llmMeaningMatch_quiet userQ candidateQ :
  keeps R (llmMeaningMatch E userQ candidateQ).
Proof. unfold llmMeaningMatch. cbv zeta. repeat quiet_step. Qed.

Lemma scoreValidation_quiet normalized best second :
  keeps R (scoreValidation E normalized best second).
Proof.
  unfold scoreValidation.
  pose proof (llmMeaningMatch_quiet normalized (question best)).
  repeat quiet_step.
Qed.

Lemma multiMatch_quiet normalized matches best second :
  keeps R (multiMatch E normalized matches best second).
Proof.
  unfold multiMatch. cbv zeta.
  pose proof (scoreValidation_quiet normalized best second).
  repeat quiet_step.
Qed.

(** From step 5 on, the steps only call collaborators. *)
Lemma semanticSearch_quiet normalized vector :
  keeps R (semanticSearch E normalized vector).
Proof.
  unfold semanticSearch. repeat quiet_step. apply multiMatch_quiet.
Qed.

Context `{!Writes R}.

Lemma embedCache_quiet normalized : keeps R (embedCache E normalized).
Proof.
  unfold embedCache.
  assert (Hset : forall v, keeps R (@cacheSet W normalized v))
    by (intros v st; apply writes_cache).
  repeat quiet_step.
Qed.

Lemma embed_quiet normalized : keeps R (embed E normalized).
Proof.
  unfold embed.
  pose proof (embedCache_quiet normalized).
  pose proof (semanticSearch_quiet normalized).
  repeat quiet_step.
Qed.

Lemma spellFix_quiet finalUser : keeps R (spellFix E finalUser).
Proof. unfold spellFix. pose proof embed_quiet. repeat quiet_step. Qed.

Lemma aiRouter_quiet question panos projects :
  keeps R (aiRouter E question panos projects).
Proof.
  unfold aiRouter, followUpMemory. cbv zeta.
  assert (Hset : keeps R (@setMemory W question))
    by (intros st; apply writes_memory).
  pose proof spellFix_quiet. repeat quiet_step.
Qed.

End QuietStages.

(** ** Requests that do not get to the semantic search *)

Section Gates.
Context {W : Type} (E : Externals W).

(** The check of the question, as a boolean: [true] when the request is
    turned down. *)
Lemma check_accepted (req : Request) :
  negb (valueTruthy (req_question req)) || negb (typeofString (req_question req))
  = false
  <-> exists q, accepted req q.
Proof.
  split.
  - destruct (req_question req) as [| |b|x|q|] eqn:Hq; simpl;
      rewrite ?orb_true_r; try discriminate.
    destruct q as [|c q]; [discriminate|]. intros _.
    exists (c :: q). split; [exact Hq | discriminate].
  - intros [q Hacc]. apply (accepted_check req q Hacc).
Qed.

(** X1.  The knowledge store is read at most once per request, before anything
    else, and only while it is empty: after a request it is what
    [loadEmbeddingsOnce] left, whatever the request did; a store that is not
    empty is never read again nor changed; an empty one is read again at
    every request, and a missing or unreadable file leaves it empty. *)
Theorem knowledge_store_fixed (req : Request) (st : State W) :
  EMBEDDINGS (snd (handleChat E req st)) = EMBEDDINGS (loaded E st)
  /\ (EMBEDDINGS st <> [] ->
      loaded E st = st
      /\ EMBEDDINGS (snd (handleChat E req st)) = EMBEDDINGS st)
  /\ (EMBEDDINGS st = [] ->
      world (loaded E st) = snd (readEmbeddingsFile E (world st))
      /\ EMBEDDINGS (loaded E st)
         = match fst (readEmbeddingsFile E (world st)) with
           | FileParsed entries => entries
           | FileMissing | FileUnreadable => []
           end).
Proof.
  assert (Hrun : EMBEDDINGS (snd (handleChat E req st))
                 = EMBEDDINGS (loaded E st)).
  { unfold handleChat. rewrite catchAll_snd.
    unfold handleChat_try, bind. rewrite loadEmbeddingsOnce_run. cbv zeta.
    destruct (negb (valueTruthy (req_question req))
              || negb (typeofString (req_question req))); [reflexivity|].
    destruct (req_question req) as [| |b|x|q|]; try reflexivity.
    apply (aiRouter_quiet E sameStore). }
  split; [exact Hrun|]. split.
  - intros Hne.
    assert (Hload : loaded E st = st).
    { unfold loaded, loadEmbeddingsOnce.
      destruct (EMBEDDINGS st) as [|e es]; [contradiction | reflexivity]. }
    split; [exact Hload|]. rewrite Hrun, Hload. reflexivity.
  - intros Hempty. unfold loaded, loadEmbeddingsOnce. rewrite Hempty.
    cbn [length Nat.ltb Nat.leb].
    destruct (readEmbeddingsFile E (world st)) as [[| |entries] w];
      split; reflexivity.
Qed.

(** X2.  The response is [{answer: "question is required"}] exactly when the
    question is missing, is not a string or is the empty string; such a
    request calls no collaborator and leaves the memory and the cache as they
    were. *)
Theorem required_answer_iff (req : Request) (st : State W) :
  let turnedDown :=
    negb (valueTruthy (req_question req))
    || negb (typeofString (req_question req)) in
  (fst (handleChat E req st) = requiredAnswer <-> turnedDown = true)
  /\ (turnedDown = true ->
      memory (snd (handleChat E req st)) = memory st
      /\ EMB_CACHE (snd (handleChat E req st)) = EMB_CACHE st
      /\ trace (snd (handleChat E req st)) = trace st).
Proof.
  cbv zeta.
  destruct (negb (valueTruthy (req_question req))
            || negb (typeofString (req_question req))) eqn:Hcheck.
  - assert (Hrej : forall q, ~ accepted req q).
    { intros q Hacc. rewrite (accepted_check req q Hacc) in Hcheck.
      discriminate. }
    rewrite (handleChat_rejected E req st Hrej). cbn [fst snd].
    split; [tauto|]. intros _. apply loaded_fields.
  - split; [|discriminate]. split; [|discriminate].
    apply check_accepted in Hcheck. destruct Hcheck as [q Hacc].
    rewrite (handleChat_accepted E req q st Hacc). unfold catchAll.
    destruct (aiRouter E (trim q) (panoNames req) (projectNames req)
                (loaded E st)) as [[r|err] st1] eqn:Hr; [|discriminate].
    apply aiRouter_returns in Hr. cbn [fst]. intros ->. destruct Hr.
Qed.

(** X3.  A request that the router answers ([pano] or [project]) gets
    [{intent, target}] with the router's target; the router is the only
    collaborator called, and the memory and the cache are left as they
    were. *)
Theorem router_bypass (req : Request) (q : jsstring) (st : State W)
    (ai : AiIntent) (w : W) :
  accepted req q ->
  aiIntentRouter E (trim q) (panoNames req) (projectNames req)
    (world (loaded E st)) = (Return ai, w) ->
  intent ai = str "pano" \/ intent ai = str "project" ->
  handleChat E req st
  = (Route (intent ai) (target ai),
     Build_State (memory st) (EMB_CACHE st) (EMBEDDINGS (loaded E st)) w
       (CallRouter (trim q) (panoNames req) (projectNames req) :: trace st)).
Proof.
  intros Hacc Hr Hi.
  rewrite (handleChat_accepted E req q st Hacc). unfold catchAll.
  rewrite (aiRouter_bypass E _ _ _ _ ai w Hr Hi).
  destruct (loaded_fields E st) as (-> & -> & ->). reflexivity.
Qed.

(** X4.  A request whose ranking is empty gets the fallback tagged [no-match];
    the language model is not asked. *)
Theorem no_match_fallback (req : Request) (st : State W)
    (normalized : jsstring) (st3 st4 : State W) (vector : list float) (w5 : W) :
  atEmbed E req st normalized st3 ->
  embedCache E normalized st3 = (Return vector, st4) ->
  vector <> [] ->
  findTopMatches E vector (EMBEDDINGS st4) normalized 5 (world st4)
  = (Return [], w5) ->
  handleChat E req st
  = (Answer smartFallback (Some NoMatch),
     Build_State (memory st4) (EMB_CACHE st4) (EMBEDDINGS st4) w5
       (CallFindTopMatches vector normalized 5 :: trace st4)).
Proof.
  intros Hat Hcache Hvec Hrank.
  rewrite (handleChat_atEmbed E req st normalized st3 Hat).
  unfold catchAll, embed, bind at 1. rewrite Hcache.
  destruct vector as [|x vector]; [contradiction|]. cbn [length Nat.eqb].
  unfold semanticSearch, bind, getEmbeddings, call. rewrite Hrank. reflexivity.
Qed.

End Gates.

(** ** The order of the calls *)

Section Order.
Context {W : Type}.

Lemma sorted_app {A} (R : A -> A -> Prop) (l2 l1 : list A) :
  StronglySorted R l2 -> StronglySorted R l1 ->
  (forall a b, In a l2 -> In b l1 -> R a b) ->
  StronglySorted R (l2 ++ l1).
Proof.
  intros H2 H1 Hcross. induction H2 as [|a l2 Hs IH Hall]; simpl; [exact H1|].
  constructor.
  - apply IH. intros x y Hx Hy. apply Hcross; [right; exact Hx | exact Hy].
  - apply Forall_app. split; [exact Hall|].
    rewrite List.Forall_forall. intros b Hb. apply Hcross; [left; reflexivity | exact Hb].
Qed.

Lemma between_same_trace lo hi (st st' : State W) :
  trace st' = trace st -> between lo hi st st'.
Proof.
  intros H. exists []. split; [exact H|]. split; constructor.
Qed.

Lemma between_weaken lo hi lo' hi' (st st' : State W) :
  (lo' <= lo)%nat -> (hi <= hi')%nat ->
  between lo hi st st' -> between lo' hi' st st'.
Proof.
  intros Hlo Hhi (evs & Htr & Hs & Hr). exists evs.
  split; [exact Htr|]. split; [exact Hs|].
  rewrite List.Forall_forall in *. intros e He. specialize (Hr e He). lia.
Qed.

Lemma between_trans lo mid hi (st1 st2 st3 : State W) :
  (lo <= mid)%nat -> (mid <= hi)%nat ->
  between lo mid st1 st2 -> between mid hi st2 st3 -> between lo hi st1 st3.
Proof.
  intros Hlo Hhi (e1 & Ht1 & Hs1 & Hr1) (e2 & Ht2 & Hs2 & Hr2).
  rewrite List.Forall_forall in Hr1, Hr2.
  exists (e2 ++ e1). split; [|split].
  - rewrite Ht2, Ht1. apply app_assoc.
  - apply sorted_app; [exact Hs2 | exact Hs1|].
    intros a b Ha Hb. specialize (Hr1 b Hb). specialize (Hr2 a Ha). lia.
  - rewrite List.Forall_forall. intros e He. apply in_app_or in He.
    destruct He as [He|He]; [specialize (Hr2 e He) | specialize (Hr1 e He)]; lia.
Qed.

Lemma between_ret {A} lo hi (a : A) : keeps (between lo hi) (@ret W A a).
Proof. intros st. apply between_same_trace. reflexivity. Qed.

Lemma between_call {A} (ev : Event) (f : W -> Outcome A * W) :
  keeps (between (stageOf ev) (S (stageOf ev))) (call ev f).
Proof.
  intros st. unfold call. destruct (f (world st)) as [r w]. simpl.
  exists [ev]. split; [reflexivity|]. split.
  - repeat constructor.
  - constructor; [lia | constructor].
Qed.

Lemma between_bind {A B} lo mid hi (m : M W A) (k : A -> M W B) :
  (lo <= mid)%nat -> (mid <= hi)%nat ->
  keeps (between lo mid) m -> (forall a, keeps (between mid hi) (k a)) ->
  keeps (between lo hi) (bind m k).
Proof.
  intros Hlo Hhi Hm Hk st. unfold bind. specialize (Hm st).
  destruct (m st) as [[a|err] st1]; simpl in *.
  - apply (between_trans lo mid hi st st1); auto. apply Hk.
  - apply (between_weaken lo mid); auto.
Qed.

Lemma between_try_catch {A} lo hi (m : M W A) (a : A) :
  keeps (between lo hi) m ->
  keeps (between lo hi) (try_catch m (fun _ => ret a)).
Proof.
  intros Hm st. unfold try_catch, ret. specialize (Hm st).
  destruct (m st) as [[x|err] st1]; exact Hm.
Qed.

End Order.

Section OrderedStages.
Context {W : Type} (E : Externals W).

Lemma llmMeaningMatch_between userQ candidateQ :
  keeps (between 5 6) (llmMeaningMatch E userQ candidateQ).
Proof.
  unfold llmMeaningMatch. cbv zeta. apply between_try_catch.
  apply (between_bind 5 6 6); [lia | lia | apply between_call |].
  intros out.
  repeat match goal with
         | |- keeps _ (if ?b then _ else _) => destruct b
         end; apply between_ret.
Qed.

Lemma scoreValidation_between normalized best second :
  keeps (between 5 6) (scoreValidation E normalized best second).
Proof.
  unfold scoreValidation.
  destruct (low best || ambi best second); [|apply between_ret].
  apply (between_bind 5 6 6); [lia | lia | apply llmMeaningMatch_between |].
  intros [[|]|]; try apply between_ret.
  destruct (negb (low best) && PrimFloat.leb TRUST (_score best));
    apply between_ret.
Qed.

Lemma multiMatch_between normalized matches best second :
  keeps (between 5 6) (multiMatch E normalized matches best second).
Proof.
  unfold multiMatch. cbv zeta.
  destruct (tokenCount normalized <=? 1)%nat;
    [destruct (truthy (trim (multiMatchList matches)))|];
    try apply between_ret; apply scoreValidation_between.
Qed.

Lemma semanticSearch_between normalized vector :
  keeps (between 4 6) (semanticSearch E normalized vector).
Proof.
  unfold semanticSearch.
  apply (between_bind 4 4 6); [lia | lia | |intros embeddings].
  { intros st. apply between_same_trace. reflexivity. }
  apply (between_bind 4 5 6); [lia | lia | apply between_call |].
  intros [|best rest]; [apply between_ret|].
  intros st. apply (between_weaken 5 6); [lia | lia |].
  apply multiMatch_between.
Qed.

Lemma embedCache_between normalized :
  keeps (between 3 4) (embedCache E normalized).
Proof.
  unfold embedCache.
  apply (between_bind 3 3 4); [lia | lia | |intros cached].
  { intros st. apply between_same_trace. reflexivity. }
  destruct cached as [vector|]; [apply between_ret|].
  apply (between_bind 3 4 4); [lia | lia | apply between_call |].
  intros vector.
  apply (between_bind 4 4 4); [lia | lia | |intros _; apply between_ret].
  intros st. apply between_same_trace. reflexivity.
Qed.

Lemma embed_between normalized : keeps (between 3 6) (embed E normalized).
Proof.
  unfold embed.
  apply (between_bind 3 4 6); [lia | lia | apply embedCache_between |].
  intros vector. destruct (length vector =? 0)%nat; [apply between_ret|].
  intros st. apply (between_weaken 4 6); [lia | lia |].
  apply semanticSearch_between.
Qed.

Lemma spellFix_between finalUser : keeps (between 1 6) (spellFix E finalUser).
Proof.
  unfold spellFix.
  apply (between_bind 1 2 6); [lia | lia | apply between_call |].
  intros corrected.
  apply (between_bind 2 3 6); [lia | lia | apply between_call |].
  intros normalized. apply embed_between.
Qed.

Lemma aiRouter_between question panos projects :
  keeps (between 0 6) (aiRouter E question panos projects).
Proof.
  unfold aiRouter.
  apply (between_bind 0 1 6); [lia | lia | apply between_call |].
  intros ai.
  destruct (strictEq (intent ai) (str "pano")); [apply between_ret|].
  destruct (strictEq (intent ai) (str "project")); [apply between_ret|].
  unfold followUpMemory. cbv zeta.
  apply (between_bind 1 1 6); [lia | lia | |intros memory].
  { intros st. apply between_same_trace. reflexivity. }
  apply (between_bind 1 1 6); [lia | lia | |intros _; apply spellFix_between].
  intros st. apply between_same_trace. reflexivity.
Qed.

(** X5.  A request calls its collaborators in the order router, spelling
    correction, normalization, embedding, matcher, language model, and each of
    them at most once: nothing is retried.  (The record of calls has the most
    recent call first.) *)
Theorem calls_in_order_once (req : Request) (st : State W) :
  exists evs,
    trace (snd (handleChat E req st)) = evs ++ trace st
    /\ StronglySorted (fun a b => (stageOf b < stageOf a)%nat) evs
    /\ (length evs <= 6)%nat.
Proof.
  assert (H : between 0 6 st (snd (handleChat E req st))).
  { unfold handleChat. rewrite catchAll_snd.
    unfold handleChat_try, bind. rewrite loadEmbeddingsOnce_run. cbv zeta.
    destruct (loaded_fields E st) as (_ & _ & Htr).
    assert (Hload : between 0 0 st (loaded E st))
      by (apply between_same_trace; exact Htr).
    apply (between_trans 0 0 6 st (loaded E st)); [lia | lia | exact Hload |].
    destruct (negb (valueTruthy (req_question req))
              || negb (typeofString (req_question req)));
      [apply between_same_trace; reflexivity|].
    destruct (req_question req) as [| |b|x|q|];
      try (apply between_same_trace; reflexivity).
    apply aiRouter_between. }
  destruct H as (evs & Htr & Hs & Hr).
  exists evs. split; [exact Htr|]. split; [exact Hs|].
  clear Htr. revert Hr. generalize 6%nat.
  induction Hs as [|e evs Hs IH Hall]; intros hi Hf; simpl; [lia|].
  inversion Hf as [|? ? He Hrest]; subst.
  assert (Hle : (length evs <= stageOf e)%nat).
  { apply IH. apply List.Forall_forall. intros x Hx.
    rewrite List.Forall_forall in Hall. specialize (Hall x Hx).
    cbv beta in Hall. lia. }
  cbv beta in He. lia.
Qed.

End OrderedStages.

(** ** The tag tells whether the language model was asked *)

Section Tally.
Context {W : Type} (E : Externals W).

Lemma emits_same_trace (P : Event -> Prop) (st st' : State W) :
  trace st' = trace st -> emits P st st'.
Proof. intros H. exists []. split; [exact H | constructor]. Qed.

Lemma emits_call {A} (P : Event -> Prop) (ev : Event)
    (f : W -> Outcome A * W) :
  P ev -> keeps (emits P) (call ev f).
Proof.
  intros Hev st. unfold call. destruct (f (world st)) as [r w]. simpl.
  exists [ev]. split; [reflexivity | repeat constructor; exact Hev].
Qed.

Lemma llmCalls_none (evs : list Event) :
  Forall (fun e => isLlmCall e = false) evs -> llmCalls evs = 0%nat.
Proof.
  unfold llmCalls. induction 1 as [|e evs He _ IH]; simpl; [reflexivity|].
  rewrite He. exact IH.
Qed.

Lemma llmCalls_app (evs2 evs1 : list Event) :
  llmCalls (evs2 ++ evs1) = (llmCalls evs2 + llmCalls evs1)%nat.
Proof. unfold llmCalls. rewrite List.filter_app. apply length_app. Qed.

(** A step that does not ask the model, followed by steps that tally. *)
Lemma tally_bind {A} (m : M W A) (k : A -> M W Response) :
  keeps (emits (fun e => isLlmCall e = false)) m ->
  (forall a st, llmTally st (fst (k a st)) (snd (k a st))) ->
  forall st, llmTally st (fst (bind m k st)) (snd (bind m k st)).
Proof.
  intros Hm Hk st. unfold bind. destruct (Hm st) as (e1 & Ht1 & Hq).
  destruct (m st) as [[a|err] st1]; simpl in *.
  - destruct (Hk a st1) as (e2 & Ht2 & Hn). exists (e2 ++ e1). split.
    + rewrite Ht2, Ht1. apply app_assoc.
    + rewrite llmCalls_app, (llmCalls_none e1 Hq), Hn. lia.
  - exists e1. split; [exact Ht1 | apply llmCalls_none; exact Hq].
Qed.

Lemma tally_ret (r : Response) (st : State W) :
  consulted r = false -> llmTally st (fst (ret r st)) (snd (ret r st)).
Proof. intros H. exists []. simpl. rewrite H. split; reflexivity. Qed.

(** A run of [llmMeaningMatch] records one call, whatever the verdict. *)
Lemma llmMeaningMatch_run userQ candidateQ (st : State W) :
  exists verdict w,
    llmMeaningMatch E userQ candidateQ st
    = (Return verdict,
       Build_State (memory st) (EMB_CACHE st) (EMBEDDINGS st) w
         (CallAnswerGeneralQuestion
            (promptHead ++ userQ ++ promptMiddle ++ candidateQ ++ promptTail)
          :: trace st)).
Proof.
  unfold llmMeaningMatch, try_catch, bind, call, ret.
  destruct (answerGeneralQuestion E _ (world st)) as [[out|err] w]; simpl.
  - repeat match goal with
           | |- context [if ?b then _ else _] => destruct b
           end; eauto.
  - eauto.
Qed.

Lemma scoreValidation_tally normalized best second (st : State W) :
  llmTally st (fst (scoreValidation E normalized best second st))
    (snd (scoreValidation E normalized best second st)).
Proof.
  unfold scoreValidation.
  destruct (low best || ambi best second); [|apply tally_ret; reflexivity].
  unfold bind.
  destruct (llmMeaningMatch_run normalized (question best) st)
    as (verdict & w & ->).
  destruct verdict as [[|]|];
    [| |destruct (negb (low best) && PrimFloat.leb TRUST (_score best))];
    (eexists [_]; split; reflexivity).
Qed.

Lemma multiMatch_tally normalized matches best second (st : State W) :
  llmTally st (fst (multiMatch E normalized matches best second st))
    (snd (multiMatch E normalized matches best second st)).
Proof.
  unfold multiMatch. cbv zeta.
  destruct (tokenCount normalized <=? 1)%nat;
    [destruct (truthy (trim (multiMatchList matches)))|];
    try apply scoreValidation_tally.
  apply tally_ret. reflexivity.
Qed.

Lemma embed_tally normalized (st : State W) :
  llmTally st (fst (embed E normalized st)) (snd (embed E normalized st)).
Proof.
  unfold embed. apply tally_bind.
  - intros st0. destruct (embedCache_trace E normalized st0) as [H|H].
    + apply emits_same_trace. exact H.
    + exists [CallEmbedText normalized]. split; [exact H | repeat constructor].
  - intros vector st0.
    destruct (length vector =? 0)%nat; [apply tally_ret; reflexivity|].
    unfold semanticSearch. apply tally_bind.
    { intros st1. apply emits_same_trace. reflexivity. }
    intros embeddings st1. apply tally_bind.
    { apply emits_call. reflexivity. }
    intros [|best rest] st2; [apply tally_ret; reflexivity|].
    apply multiMatch_tally.
Qed.

Lemma aiRouter_tally question panos projects (st : State W) :
  llmTally st (fst (aiRouter E question panos projects st))
    (snd (aiRouter E question panos projects st)).
Proof.
  unfold aiRouter. apply tally_bind; [apply emits_call; reflexivity|].
  intros ai st0.
  destruct (strictEq (intent ai) (str "pano")); [apply tally_ret; reflexivity|].
  destruct (strictEq (intent ai) (str "project"));
    [apply tally_ret; reflexivity|].
  unfold followUpMemory. cbv zeta. apply tally_bind.
  { intros st1. apply emits_same_trace. reflexivity. }
  intros memory st1. apply tally_bind.
  { intros st2. apply emits_same_trace. reflexivity. }
  intros _ st2. unfold spellFix. apply tally_bind.
  { apply emits_call. reflexivity. }
  intros corrected st3. apply tally_bind.
  { apply emits_call. reflexivity. }
  intros normalized st4. apply embed_tally.
Qed.

(** X6.  The tags [llm-validated], [llm-reject], [semantic-llm-unavailable] and
    [llm-unavailable] are given exactly to the requests that asked the
    language model, and those asked it once; every other response (routing,
    [semantic], [multi-match], [no-match], [no-vector], [error], "question is
    required") comes from a request that did not ask it. *)
Theorem tag_tells_llm_call (req : Request) (st : State W) :
  exists evs,
    trace (snd (handleChat E req st)) = evs ++ trace st
    /\ llmCalls evs
       = if consulted (fst (handleChat E req st)) then 1%nat else 0%nat.
Proof.
  assert (H : llmTally st (fst (handleChat_try E req st))
                (snd (handleChat_try E req st))).
  { unfold handleChat_try. apply tally_bind.
    - intros st0. apply emits_same_trace.
      rewrite loadEmbeddingsOnce_run. apply loaded_fields.
    - intros _ st0. cbv zeta.
      destruct (negb (valueTruthy (req_question req))
                || negb (typeofString (req_question req)));
        [apply tally_ret; reflexivity|].
      destruct (req_question req) as [| |b|x|q|];
        try (apply tally_ret; reflexivity).
      apply aiRouter_tally. }
  destruct H as (evs & Htr & Hn). exists evs.
  unfold handleChat, catchAll.
  destruct (handleChat_try E req st) as [[r|err] st']; simpl in *;
    split; assumption.
Qed.

End Tally.

(** ** Scores at the edges: NaN, and scores below the thresholds *)

Section Floats.

Lemma isNaN_spec (x : float) : isNaN x = true <-> Prim2SF x = S754_nan.
Proof.
  unfold isNaN. rewrite FloatAxioms.eqb_spec. split.
  - destruct (Prim2SF x) as [s|s| |s m e]; unfold SFeqb; cbn.
    + discriminate.
    + destruct s; discriminate.
    + reflexivity.
    + rewrite Z.compare_refl.
      change (Pos.compare_cont Eq m m) with (Pos.compare m m).
      rewrite Pos.compare_refl. destruct s; discriminate.
  - intros ->. reflexivity.
Qed.

Lemma ltb_nan (x y : float) : isNaN x = true -> PrimFloat.ltb x y = false.
Proof.
  intros H. apply isNaN_spec in H. rewrite FloatAxioms.ltb_spec, H.
  unfold SFltb, SFcompare. reflexivity.
Qed.

Lemma leb_nan (x y : float) : isNaN y = true -> PrimFloat.leb x y = false.
Proof.
  intros H. apply isNaN_spec in H. rewrite FloatAxioms.leb_spec, H.
  unfold SFleb, SFcompare. destruct (Prim2SF x); reflexivity.
Qed.

Lemma sub_nan (x y : float) :
  isNaN x = true -> isNaN (PrimFloat.sub x y) = true.
Proof.
  intros H. apply isNaN_spec in H. apply isNaN_spec.
  rewrite FloatAxioms.sub_spec, H. unfold SF64sub, SFsub. reflexivity.
Qed.

Lemma abs_nan (x : float) : isNaN x = true -> isNaN (PrimFloat.abs x) = true.
Proof.
  intros H. apply isNaN_spec in H. apply isNaN_spec.
  rewrite FloatAxioms.abs_spec, H. unfold SFabs. reflexivity.
Qed.

(** A score of at least [0.55] is not below [0.11]. *)
Lemma trusted_not_low (x : float) :
  PrimFloat.leb 0.55%float x = true -> PrimFloat.ltb x 0.11%float = false.
Proof.
  rewrite FloatAxioms.leb_spec, FloatAxioms.ltb_spec.
  change (Prim2SF 0.55%float) with (S754_finite false 4953959590107546 (-53)).
  change (Prim2SF 0.11%float) with (S754_finite false 7926335344172073 (-56)).
  unfold SFleb, SFltb, SFcompare.
  destruct (Prim2SF x) as [s|s| |s m e]; try destruct s;
    try (intros H; discriminate H); try reflexivity.
  destruct (Z.compare_spec (-53) e); destruct (Z.compare_spec e (-56));
    try lia; intros H; first [discriminate H | reflexivity].
Qed.

(** A score that is a number and is not at least [0.08] is below [0.11]. *)
Lemma unqualified_low (x : float) :
  isNaN x = false -> PrimFloat.leb 0.08%float x = false ->
  PrimFloat.ltb x 0.11%float = true.
Proof.
  intros Hnum. rewrite FloatAxioms.leb_spec, FloatAxioms.ltb_spec.
  pose (m1 := 5764607523034235%positive).
  pose (m2 := 7926335344172073%positive).
  assert (Hm : (m1 < m2)%positive) by reflexivity.
  change (Prim2SF 0.08%float) with (S754_finite false m1 (-56)).
  change (Prim2SF 0.11%float) with (S754_finite false m2 (-56)).
  clearbody m1 m2.
  unfold SFleb, SFltb, SFcompare.
  destruct (Prim2SF x) as [s|s| |s m e] eqn:Hx.
  - destruct s; reflexivity.
  - destruct s; [reflexivity | intros H; discriminate H].
  - rewrite (proj2 (isNaN_spec x) Hx) in Hnum. discriminate.
  - destruct s; [reflexivity|].
    rewrite (Z.compare_antisym e (-56)).
    destruct (Z.compare_spec e (-56)) as [He|He|He]; cbn [CompOpp].
    + rewrite !Pos.compare_cont_spec.
      rewrite (Pos.compare_antisym m m1).
      destruct (Pos.compare_spec m m1) as [Hm1|Hm1|Hm1];
        cbn [CompOpp Pos.switch_Eq].
      * intros H; discriminate H.
      * intros _.
        destruct (Pos.compare_spec m m2) as [Hm'|Hm'|Hm'];
          [lia | reflexivity | lia].
      * intros H; discriminate H.
    + intros _; reflexivity.
    + intros H; discriminate H.
Qed.

End Floats.

Section Scores.
Context {W : Type} (E : Externals W).

(** X10.  A best candidate whose score is NaN (a similarity that is not a number)
    passes every test of the arbiter: it is never in the multi-match list, it
    is not low, it is not ambiguous whatever the second candidate, and steps 7
    to 9 answer with it, tagged [semantic], without asking the language
    model. *)
Theorem nan_score_unvalidated (normalized : jsstring) (best : MatchCandidate)
    (second : option MatchCandidate) (st : State W) :
  isNaN (_score best) = true ->
  qualifies best = false
  /\ low best = false
  /\ ambi best second = false
  /\ scoreValidation E normalized best second st
     = (Return (Answer (answer best) (Some Semantic)), st).
Proof.
  intros Hnan.
  assert (Hq : qualifies best = false) by (apply leb_nan; exact Hnan).
  assert (Hlow : low best = false) by (apply ltb_nan; exact Hnan).
  assert (Hambi : ambi best second = false).
  { unfold ambi. destruct second as [s|]; [|reflexivity].
    apply ltb_nan, abs_nan, sub_nan. exact Hnan. }
  repeat split; try assumption.
  unfold scoreValidation. rewrite Hlow, Hambi. reflexivity.
Qed.

(** X11.  The trust fallback is for ambiguous matches only.  Steps 7 to 9 give the
    tag [semantic-llm-unavailable] exactly when the best candidate is
    ambiguous, the model gave no verdict and the best score is at least
    [0.55]; a score of at least [0.55] is never low, so the test of [low] in
    the fallback changes nothing. *)
Theorem trust_fallback_only_when_ambiguous (normalized : jsstring)
    (best : MatchCandidate) (second : option MatchCandidate) (st : State W) :
  (PrimFloat.leb 0.55%float (_score best) = true -> low best = false)
  /\ (fst (scoreValidation E normalized best second st)
      = Return (Answer (answer best) (Some SemanticLlmUnavailable))
      <-> ambi best second = true
          /\ fst (llmMeaningMatch E normalized (question best) st) = Return None
          /\ PrimFloat.leb 0.55%float (_score best) = true).
Proof.
  split; [apply trusted_not_low|].
  unfold scoreValidation, TRUST.
  destruct (low best) eqn:Hlow; destruct (ambi best second) eqn:Hambi;
    cbn [orb negb andb].
  - unfold bind.
    destruct (llmMeaningMatch_run E normalized (question best) st)
      as (verdict & w & ->).
    cbn [fst]. split.
    + destruct verdict as [[|]|]; intros H; discriminate H.
    + intros (_ & _ & Hs). apply trusted_not_low in Hs.
      unfold low, MIN in Hlow. congruence.
  - unfold bind.
    destruct (llmMeaningMatch_run E normalized (question best) st)
      as (verdict & w & ->).
    cbn [fst]. split.
    + destruct verdict as [[|]|]; intros H; discriminate H.
    + intros (H & _). discriminate H.
  - unfold bind.
    destruct (llmMeaningMatch_run E normalized (question best) st)
      as (verdict & w & ->).
    cbn [fst]. split.
    + destruct verdict as [[|]|]; try (intros H; discriminate H).
      destruct (PrimFloat.leb 0.55%float (_score best));
        [auto | intros H; discriminate H].
    + intros (_ & Hv & Hs). inversion Hv; subst verdict. rewrite Hs.
      reflexivity.
  - split; [intros H; discriminate H | intros (H & _); discriminate H].
Qed.

(** X12.  A best candidate whose score is a number below [0.08] is low: steps 7 to
    9 ask the language model and answer with the candidate only when the
    model says yes; otherwise the response is the fallback.  For a one-token
    query this is what happens whenever no candidate reaches [0.08]. *)
Theorem weak_best_needs_yes (normalized : jsstring) (best : MatchCandidate)
    (second : option MatchCandidate) (st : State W) :
  isNaN (_score best) = false ->
  qualifies best = false ->
  low best = true
  /\ exists verdict w,
       llmMeaningMatch E normalized (question best) st
       = (Return verdict,
          Build_State (memory st) (EMB_CACHE st) (EMBEDDINGS st) w
            (CallAnswerGeneralQuestion
               (promptHead ++ normalized ++ promptMiddle ++ question best
                ++ promptTail) :: trace st))
       /\ fst (scoreValidation E normalized best second st)
          = Return (match verdict with
                    | Some true => Answer (answer best) (Some LlmValidated)
                    | Some false => Answer smartFallback (Some LlmReject)
                    | None => Answer smartFallback (Some LlmUnavailable)
                    end).
Proof.
  intros Hnum Hq.
  assert (Hlow : low best = true) by (apply unqualified_low; assumption).
  split; [exact Hlow|].
  destruct (llmMeaningMatch_run E normalized (question best) st)
    as (verdict & w & Hrun).
  exists verdict, w. split; [exact Hrun|].
  unfold scoreValidation. rewrite Hlow. cbn [orb negb andb].
  unfold bind. rewrite Hrun.
  destruct verdict as [[|]|]; reflexivity.
Qed.

End Scores.

(** ** Multi-match mode and the cache, in full *)

Section Modes.
Context {W : Type} (E : Externals W).

(** X7.  Step 6 answers with the multi-match list exactly when the normalized
    query holds no white space at all (the empty query included) and a
    candidate scores at least [0.08]; in any other case, so for a one-word
    query with a space or a line break before or after it, step 6 is step 7
    and on. *)
Theorem multi_match_exactly_when (normalized : jsstring)
    (matches : list MatchCandidate) (best : MatchCandidate)
    (second : option MatchCandidate) :
  (existsb isWhiteSpace normalized = false ->
   existsb qualifies matches = true ->
   forall st : State W,
     multiMatch E normalized matches best second st
     = (Return (Answer (multiMatchList matches) (Some MultiMatch)), st))
  /\ (existsb isWhiteSpace normalized = true
      \/ existsb qualifies matches = false ->
      multiMatch E normalized matches best second
      = scoreValidation E normalized best second).
Proof.
  unfold multiMatch. cbv zeta. rewrite multiMatchList_truthy. split.
  - intros Hws Hq st. apply tokenCount_single in Hws.
    rewrite Hws, Hq. reflexivity.
  - intros [Hws|Hq].
    + destruct (tokenCount normalized <=? 1)%nat eqn:Hle; [|reflexivity].
      apply Nat.leb_le in Hle. pose proof (tokenCount_pos normalized) as Hpos.
      assert (Hone : tokenCount normalized = 1%nat) by lia.
      apply tokenCount_single in Hone. congruence.
    + rewrite Hq. destruct (tokenCount normalized <=? 1)%nat; reflexivity.
Qed.

(** What step 4 and on leave in the cache. *)
Lemma embed_cache normalized (st : State W) :
  EMB_CACHE (snd (embed E normalized st))
  = match EMB_CACHE st !! normalized with
    | Some _ => EMB_CACHE st
    | None =>
        match fst (embedText E normalized (world st)) with
        | Return vector => <[normalized := vector]> (EMB_CACHE st)
        | Throw _ => EMB_CACHE st
        end
    end.
Proof.
  unfold embed, bind at 1, embedCache, bind, cacheGet, cacheSet, call, ret.
  destruct (EMB_CACHE st !! normalized) as [vector|] eqn:Hc.
  - destruct (length vector =? 0)%nat; [reflexivity|].
    apply (semanticSearch_quiet E onlyCalls).
  - destruct (embedText E normalized (world st)) as [[vector|err] w];
      cbn [fst]; [|reflexivity].
    destruct (length vector =? 0)%nat; [reflexivity|].
    match goal with
    | |- EMB_CACHE (snd (semanticSearch E normalized vector ?s)) = _ =>
        destruct (semanticSearch_quiet E onlyCalls normalized vector s)
          as (_ & Hcache & _)
    end.
    exact Hcache.
Qed.

(** X8.  What a request does to the embedding cache.  A request never removes or
    overwrites an entry and adds one at most.  One that gets to step 4 adds
    the vector that [embedText] returns under its normalized query when the
    query has no entry yet (also when the vector is empty); it leaves the
    cache as it is when the query has an entry or when [embedText] throws. *)
Theorem cache_update_law (req : Request) (st : State W) :
  (EMB_CACHE (snd (handleChat E req st)) = EMB_CACHE st
   \/ exists key vector,
        EMB_CACHE st !! key = None
        /\ EMB_CACHE (snd (handleChat E req st))
           = <[key := vector]> (EMB_CACHE st))
  /\ (forall normalized st3,
        atEmbed E req st normalized st3 ->
        EMB_CACHE (snd (handleChat E req st))
        = match EMB_CACHE st !! normalized with
          | Some _ => EMB_CACHE st
          | None =>
              match fst (embedText E normalized (world st3)) with
              | Return vector => <[normalized := vector]> (EMB_CACHE st)
              | Throw _ => EMB_CACHE st
              end
          end).
Proof.
  split.
  - unfold handleChat. rewrite catchAll_snd.
    unfold handleChat_try, bind. rewrite loadEmbeddingsOnce_run. cbv zeta.
    destruct (loaded_fields E st) as (_ & Hcache & _).
    destruct (negb (valueTruthy (req_question req))
              || negb (typeofString (req_question req)));
      [left; exact Hcache|].
    destruct (req_question req) as [| |b|x|q|]; try (left; exact Hcache).
    rewrite <- Hcache. generalize (loaded E st). clear Hcache. intros s0.
    remember (EMB_CACHE (snd (aiRouter E (trim q) (panoNames req)
                                (projectNames req) s0))) as after eqn:Hafter.
    revert Hafter.
    unfold aiRouter, bind at 1, call at 1.
    destruct (aiIntentRouter E (trim q) (panoNames req) (projectNames req)
                (world s0)) as [[ai|err] w1]; [|intros ->; left; reflexivity].
    destruct (strictEq (intent ai) (str "pano"));
      [intros ->; left; reflexivity|].
    destruct (strictEq (intent ai) (str "project"));
      [intros ->; left; reflexivity|].
    unfold followUpMemory, bind at 1, getMemory, bind at 1, setMemory.
    cbv zeta. unfold spellFix, bind at 1, call at 1. cbn [world].
    destruct (correctSpelling E _ w1) as [[corrected|err] w2];
      [|intros ->; left; reflexivity].
    unfold bind at 1, call at 1. cbn [world].
    destruct (normalizeToMeaning E corrected w2) as [[normalized|err] w3];
      [|intros ->; left; reflexivity].
    rewrite embed_cache. cbn [EMB_CACHE world].
    destruct (EMB_CACHE s0 !! normalized) as [v|] eqn:Hc;
      [intros ->; left; reflexivity|].
    destruct (fst (embedText E normalized w3)) as [vector|err];
      [|intros ->; left; reflexivity].
    intros ->. right. exists normalized, vector.
    split; [exact Hc | reflexivity].
  - intros normalized st3 Hat.
    rewrite (handleChat_atEmbed E req st normalized st3 Hat), catchAll_snd.
    rewrite embed_cache.
    destruct Hat as (q & ai & w1 & corrected & w2 & w3 & _ & _ & _ & ->).
    reflexivity.
Qed.

(** X9.  A request whose normalized query has an entry in the cache does not call
    [embedText]: it goes on with the stored vector, and with a stored vector
    of length zero it answers the fallback tagged [no-vector] again, without
    calling the embedding service or the matcher. *)
Theorem cached_vector_is_reused (req : Request) (st : State W)
    (normalized : jsstring) (st3 : State W) (vector : list float) :
  atEmbed E req st normalized st3 ->
  EMB_CACHE st !! normalized = Some vector ->
  handleChat E req st
  = catchAll (if (length vector =? 0)%nat
              then ret (Answer smartFallback (Some NoVector))
              else semanticSearch E normalized vector) st3
  /\ (vector = [] ->
      handleChat E req st = (Answer smartFallback (Some NoVector), st3))
  /\ exists evs,
       trace (snd (handleChat E req st)) = evs ++ trace st
       /\ Forall (fun e => isEmbedCall e = false) evs.
Proof.
  intros Hat Hhit.
  assert (Hrun : handleChat E req st
                 = catchAll (if (length vector =? 0)%nat
                             then ret (Answer smartFallback (Some NoVector))
                             else semanticSearch E normalized vector) st3).
  { rewrite (handleChat_atEmbed E req st normalized st3 Hat).
    destruct Hat as (q & ai & w1 & corrected & w2 & w3 & _ & _ & _ & ->).
    unfold catchAll, embed, bind at 1, embedCache, bind, cacheGet, ret.
    cbn [EMB_CACHE]. rewrite Hhit. reflexivity. }
  split; [exact Hrun|]. split.
  - intros ->. rewrite Hrun. reflexivity.
  - rewrite Hrun, catchAll_snd.
    assert (Hrest : between 4 6 st3
              (snd ((if (length vector =? 0)%nat
                     then ret (Answer smartFallback (Some NoVector))
                     else semanticSearch E normalized vector) st3))).
    { destruct (length vector =? 0)%nat;
        [apply between_ret | apply semanticSearch_between]. }
    destruct Hrest as (evs & Htr & _ & Hr).
    destruct Hat as (q & ai & w1 & corrected & w2 & w3 & _ & _ & _ & ->).
    eexists (evs ++ [_; _; _]). split.
    + rewrite Htr. cbn [trace]. rewrite <- app_assoc. reflexivity.
    + apply Forall_app. split; [|repeat constructor].
      rewrite List.Forall_forall in *. intros e He. specialize (Hr e He).
      destruct e; simpl in *; try reflexivity; lia.
Qed.

End Modes.

(** ** A question of white space only *)

Section Blank.
Context {W : Type} (E : Externals W).

(** On a miss, [embedText] is the first call of step 4 and on. *)
Lemma embed_miss_trace normalized (st : State W) :
  EMB_CACHE st !! normalized = None ->
  exists evs,
    trace (snd (embed E normalized st))
    = evs ++ CallEmbedText normalized :: trace st.
Proof.
  intros Hmiss.
  unfold embed, bind at 1, embedCache, bind, cacheGet, cacheSet, call, ret.
  rewrite Hmiss.
  destruct (embedText E normalized (world st)) as [[vector|err] w];
    [|exists []; reflexivity].
  destruct vector as [|x vector]; [exists []; reflexivity|].
  cbn [length Nat.eqb].
  match goal with
  | |- context [snd (semanticSearch E normalized ?v ?s)] =>
      destruct (semanticSearch_keeps E (emits (fun _ => True)) normalized v
                  ltac:(discriminate) s) as [evs [Hevs _]]
  end.
  exists evs. exact Hevs.
Qed.

(** C10, as the code has it.  A request whose question is a non-empty string
    of white space only passes the check of the question (the check comes
    before [trim]): the response is not [{answer: "question is required"}] and
    the router is called on the trimmed question, [""].  When the router
    answers the request ([pano] or [project]), the memory is left as it was.
    When the router sends the request on, [""] is written to the memory and
    the query given to [correctSpelling] is the merge of the memory and [""]:
    [""] when the memory was empty, [memory + " "] otherwise.  When
    [correctSpelling] returns, [normalizeToMeaning] is called on its result;
    when that returns too, the embedding is looked up for the normalized
    query: without an entry in the cache [embedText] is called on it and what
    it returns is stored, with an entry the request goes on with the stored
    vector. *)
Theorem blank_question_enters_pipeline (req : Request) (q : jsstring)
    (st : State W) :
  req_question req = String_ q ->
  q <> [] ->
  forallb isWhiteSpace q = true ->
  trim q = []
  /\ fst (handleChat E req st) <> requiredAnswer
  /\ (exists evs,
        trace (snd (handleChat E req st))
        = evs ++ CallRouter [] (panoNames req) (projectNames req) :: trace st)
  /\ (forall ai w,
        aiIntentRouter E [] (panoNames req) (projectNames req)
          (world (loaded E st)) = (Return ai, w) ->
        (intent ai = str "pano" \/ intent ai = str "project" ->
         handleChat E req st
         = (Route (intent ai) (target ai),
            Build_State (memory st) (EMB_CACHE st) (EMBEDDINGS (loaded E st)) w
              (CallRouter [] (panoNames req) (projectNames req) :: trace st)))
        /\ (intent ai <> str "pano" -> intent ai <> str "project" ->
            let finalUser := mergeMemory (memory st) [] in
            memory (snd (handleChat E req st)) = []
            /\ (memory st = [] -> finalUser = [])
            /\ (memory st <> [] -> finalUser = memory st ++ str " ")
            /\ (exists evs,
                  trace (snd (handleChat E req st))
                  = evs ++ CallCorrectSpelling finalUser
                        :: CallRouter [] (panoNames req) (projectNames req)
                        :: trace st)
            /\ (forall corrected w2,
                  correctSpelling E finalUser w = (Return corrected, w2) ->
                  (exists evs,
                     trace (snd (handleChat E req st))
                     = evs ++ CallNormalizeToMeaning corrected
                           :: CallCorrectSpelling finalUser
                           :: CallRouter [] (panoNames req) (projectNames req)
                           :: trace st)
                  /\ (forall normalized w3,
                        normalizeToMeaning E corrected w2
                        = (Return normalized, w3) ->
                        let st3 :=
                          Build_State [] (EMB_CACHE st)
                            (EMBEDDINGS (loaded E st)) w3
                            (CallNormalizeToMeaning corrected
                             :: CallCorrectSpelling finalUser
                             :: CallRouter [] (panoNames req) (projectNames req)
                             :: trace st) in
                        match EMB_CACHE st !! normalized with
                        | None =>
                            (exists evs,
                               trace (snd (handleChat E req st))
                               = evs ++ CallEmbedText normalized :: trace st3)
                            /\ EMB_CACHE (snd (handleChat E req st))
                               = match fst (embedText E normalized w3) with
                                 | Return vector =>
                                     <[normalized := vector]> (EMB_CACHE st)
                                 | Throw _ => EMB_CACHE st
                                 end
                        | Some vector =>
                            handleChat E req st
                            = catchAll
                                (if (length vector =? 0)%nat
                                 then ret (Answer smartFallback (Some NoVector))
                                 else semanticSearch E normalized vector) st3
                        end)))).
Proof.
  intros Hq Hne Hblank.
  assert (Hacc : accepted req q) by (split; assumption).
  pose proof (trim_blank q Hblank) as Htrim.
  pose proof (handleChat_accepted E req q st Hacc) as Hrun.
  rewrite Htrim in Hrun.
  split; [exact Htrim|]. split; [|split].
  - rewrite Hrun. unfold catchAll.
    destruct (aiRouter E [] (panoNames req) (projectNames req) (loaded E st))
      as [[r|err] st1] eqn:Hr; [|discriminate].
    apply aiRouter_returns in Hr. cbn [fst].
    intros ->. exact Hr.
  - rewrite Hrun, catchAll_snd.
    destruct (loaded_fields E st) as (_ & _ & Htr). rewrite <- Htr.
    apply aiRouter_trace.
  - intros ai w Hr. split.
    + intros Hby. rewrite Hrun. unfold catchAll.
      rewrite (aiRouter_bypass E _ _ _ _ ai w Hr Hby).
      destruct (loaded_fields E st) as (-> & -> & ->). reflexivity.
    + intros Hpano Hproject finalUser.
      assert (Hrouted : routed E req q st ai w).
      { split; [exact Hacc|]. rewrite Htrim. repeat split; assumption. }
      destruct (routed_run E req q st ai w Hrouted) as (Hmem & Hstep & Htrace).
      rewrite Htrim in Hmem, Hstep, Htrace. fold finalUser in Hstep, Htrace.
      split; [exact Hmem|]. split; [|split; [|split; [exact Htrace|]]].
      * intros Hm. unfold finalUser. rewrite Hm. reflexivity.
      * intros Hm. unfold finalUser, mergeMemory.
        destruct (memory st) as [|c m]; [contradiction|].
        cbn [truthy strlen length Nat.leb andb]. rewrite app_nil_r.
        reflexivity.
      * intros corrected w2 Hs. split.
        { rewrite Hstep, catchAll_snd. unfold pipelineState. rewrite Htrim.
          unfold spellFix, bind at 1, call at 1. cbn [world]. rewrite Hs.
          unfold bind at 1, call at 1. cbn [world].
          destruct (normalizeToMeaning E corrected w2)
            as [[normalized|err] w3]; [|exists []; reflexivity].
          match goal with
          | |- context [snd (embed E normalized ?s)] =>
              destruct (embed_keeps E (emits (fun _ => True)) normalized s)
                as [evs [Hevs _]]
          end.
          exists evs. exact Hevs. }
        intros normalized w3 Hn st3.
        assert (Hat : atEmbed E req st normalized st3).
        { exists q, ai, w, corrected, w2, w3. unfold st3.
          rewrite Htrim. fold finalUser. auto. }
        pose proof (handleChat_atEmbed E req st normalized st3 Hat) as Hembed.
        destruct (EMB_CACHE st !! normalized) as [vector|] eqn:Hc.
        { rewrite Hembed.
          unfold catchAll, embed, bind at 1, embedCache, bind, cacheGet, ret.
          unfold st3 at 1. cbn [EMB_CACHE]. rewrite Hc. reflexivity. }
        split.
        { rewrite Hembed, catchAll_snd. apply embed_miss_trace. exact Hc. }
        rewrite Hembed, catchAll_snd, embed_cache.
        unfold st3. cbn [EMB_CACHE world]. rewrite Hc. reflexivity.
Qed.

End Blank.

(** ** [list-models.js]: what is logged *)

Module ListModelsFacts.
Import ListModels.

Lemma startsWith_refl (s : jsstring) : startsWith s s = true.
Proof.
  induction s as [|c s IH]; [reflexivity|]. simpl.
  rewrite N.eqb_refl. exact IH.
Qed.

Lemma replaceFirst_cons (c : N) (s pattern replacement : jsstring) :
  replaceFirst (c :: s) pattern replacement
  = if startsWith (c :: s) pattern
    then replacement ++ skipn (length pattern) (c :: s)
    else c :: replaceFirst s pattern replacement.
Proof. reflexivity. Qed.

(** Replacing the first occurrence of [key] in [prefix ++ key], when [key]
    does not occur earlier. *)
Lemma replaceFirst_at_end (prefix key replacement : jsstring) :
  (forall i, (i < length prefix)%nat ->
             startsWith (skipn i (prefix ++ key)) key = false) ->
  replaceFirst (prefix ++ key) key replacement = prefix ++ replacement.
Proof.
  induction prefix as [|c prefix IH]; intros Hfirst.
  - simpl app. destruct key as [|k key]; [simpl; apply app_nil_r|].
    rewrite replaceFirst_cons, startsWith_refl, skipn_all.
    apply app_nil_r.
  - simpl app. rewrite replaceFirst_cons.
    pose proof (Hfirst 0%nat ltac:(simpl; lia)) as H0. simpl in H0.
    simpl startsWith. rewrite H0. f_equal.
    apply IH. intros i Hi. apply (Hfirst (S i)). simpl. lia.
Qed.

(** X13.  The logged URL hides the key: when the key does not occur in the URL
    before the place where it was appended, what is logged is the endpoint
    followed by [HIDDEN_KEY].  With an empty key, [HIDDEN_KEY] is put in
    front of the URL. *)
Theorem key_hidden_in_log (key : jsstring) :
  (forallb (fun i => negb (startsWith (skipn i (url key)) key))
     (seq 0 (length endpoint)) = true ->
   loggedUrl key = endpoint ++ str "HIDDEN_KEY")
  /\ loggedUrl [] = str "HIDDEN_KEY" ++ endpoint.
Proof.
  split.
  - intros Hfirst. unfold loggedUrl, url. apply replaceFirst_at_end.
    intros i Hi. rewrite forallb_forall in Hfirst.
    specialize (Hfirst i). rewrite in_seq in Hfirst.
    apply negb_true_iff. apply Hfirst. lia.
  - unfold loggedUrl, url. rewrite app_nil_r. reflexivity.
Qed.

(** The lines for the models whose name contains [embed]. *)
Lemma forEachModel_named (models : list Model) :
  Forall (fun m => name m <> None) models ->
  forEachModel models
  = (map (fun m => LogModel (modelLine (default [] (name m)) m))
       (List.filter (fun m => includes (default [] (name m)) (str "embed"))
          models),
     Return tt).
Proof.
  induction 1 as [|m models Hm _ IH]; [reflexivity|].
  simpl. destruct (name m) as [n|] eqn:Hn; [|contradiction]. rewrite IH.
  simpl. destruct (includes n (str "embed")); simpl; rewrite ?Hn; reflexivity.
Qed.

Lemma forEachModel_abort (before : list Model) (m : Model) (after : list Model) :
  Forall (fun m => name m <> None) before ->
  name m = None ->
  forEachModel (before ++ m :: after)
  = (map (fun m => LogModel (modelLine (default [] (name m)) m))
       (List.filter (fun m => includes (default [] (name m)) (str "embed"))
          before),
     Throw (str "TypeError")).
Proof.
  intros Hbefore Hm.
  induction Hbefore as [|b before Hb _ IH]; simpl.
  - rewrite Hm. reflexivity.
  - destruct (name b) as [n|] eqn:Hn; [|contradiction]. rewrite IH.
    simpl. destruct (includes n (str "embed")); simpl; rewrite ?Hn; reflexivity.
Qed.

(** X14.  When the service answers with a list of models, [listModels] logs the
    hidden URL, the heading, and one line for each model whose name contains
    [embed] (and for no other), in the order of the answer.  A model without a
    name ends the listing: the lines of the models before it are logged, then
    the error, and nothing of the models after it. *)
Theorem embedding_models_listed
    (fetchModels : jsstring -> Outcome (option (list Model)))
    (key : jsstring) (models : list Model) :
  fetchModels (url key) = Return (Some models) ->
  let lines := fun ms =>
    map (fun m => LogModel (modelLine (default [] (name m)) m))
      (List.filter (fun m => includes (default [] (name m)) (str "embed")) ms) in
  (Forall (fun m => name m <> None) models ->
   listModels fetchModels key
   = LogFetching (loggedUrl key) :: LogAvailable :: lines models)
  /\ (forall before m after,
        models = before ++ m :: after ->
        Forall (fun m => name m <> None) before ->
        name m = None ->
        listModels fetchModels key
        = LogFetching (loggedUrl key) :: LogAvailable
          :: lines before ++ [LogError]).
Proof.
  intros Hfetch lines. unfold listModels. rewrite Hfetch. split.
  - intros Hnamed. rewrite (forEachModel_named models Hnamed).
    rewrite app_nil_r. reflexivity.
  - intros before m after -> Hbefore Hm.
    rewrite (forEachModel_abort before m after Hbefore Hm). reflexivity.
Qed.

End ListModelsFacts.

(** ** More runs against scripted worlds *)

Module MoreRuns.
Import Script Worlds ListModels.

Ltac unequal := let H := fresh in intro H; vm_compute in H; discriminate H.

Lemma knowledge_store_fixed_witness :
  EMBEDDINGS stocked <> []
  /\ EMBEDDINGS (snd (handleChat (externals school) (request "fees")
                        stocked))
     = EMBEDDINGS stocked.
Proof.
  assert (Hne : EMBEDDINGS stocked <> []) by unequal.
  split; [exact Hne|].
  destruct (knowledge_store_fixed (externals school) (request "fees")
              stocked) as (_ & Hfixed & _).
  exact (proj2 (Hfixed Hne)).
Defined.

Lemma required_answer_iff_witness :
  fst (handleChat (externals school) numeric initial) = requiredAnswer
  /\ trace (snd (handleChat (externals school) numeric initial)) = [].
Proof.
  destruct (required_answer_iff (externals school) numeric initial)
    as (Hiff & Hleft).
  split; [apply Hiff; reflexivity|].
  exact (proj2 (proj2 (Hleft eq_refl))).
Defined.

Lemma router_bypass_witness :
  accepted (request "gallery") (str "gallery")
  /\ fst (handleChat (externals tour) (request "gallery")
            remembered)
     = Route (str "pano") (Some (str "gallery")).
Proof.
  assert (Hacc : accepted (request "gallery") (str "gallery"))
    by (split; [reflexivity | unequal]).
  split; [exact Hacc|].
  rewrite (router_bypass (externals tour) (request "gallery")
             (str "gallery") remembered
             {| intent := str "pano"; target := Some (str "gallery") |} 2%nat
             Hacc eq_refl (or_introl eq_refl)).
  reflexivity.
Defined.

Lemma no_match_fallback_witness :
  fst (handleChat (externals barren) (request "fees") initial)
  = Answer smartFallback (Some NoMatch).
Proof.
  pose proof (Runs.school_atEmbed barren "fees" initial eq_refl eq_refl
                ltac:(unequal) (str "fees") eq_refl) as Hat.
  match type of Hat with
  | atEmbed _ _ _ _ ?st3 =>
      rewrite (no_match_fallback (externals barren) (request "fees")
                 initial (str "fees") st3
                 (snd (embedCache (externals barren) (str "fees") st3))
                 [1%float; 0%float] 6%nat Hat eq_refl ltac:(discriminate)
                 eq_refl)
  end.
  reflexivity.
Defined.

Lemma nan_score_unvalidated_witness :
  isNaN (_score undefinedScore) = true
  /\ scoreValidation (externals school) (str "school fees") undefinedScore
       (Some close) initial
     = (Return (Answer (str "Fees are paid per term.") (Some Semantic)),
        initial).
Proof.
  split; [reflexivity|].
  apply (nan_score_unvalidated (externals school) (str "school fees")
           undefinedScore (Some close) initial eq_refl).
Defined.

Lemma trust_fallback_only_when_ambiguous_witness :
  ambi strong (Some close) = true
  /\ fst (scoreValidation (externals silent) (str "school fees") strong
            (Some close) initial)
     = Return (Answer (str "Fees are paid per term.")
                 (Some SemanticLlmUnavailable)).
Proof.
  split; [reflexivity|].
  apply (trust_fallback_only_when_ambiguous (externals silent)
           (str "school fees") strong (Some close) initial).
  repeat split; reflexivity.
Defined.

Lemma weak_best_needs_yes_witness :
  isNaN (_score weak) = false
  /\ qualifies weak = false
  /\ low weak = true.
Proof.
  split; [reflexivity|]. split; [reflexivity|].
  apply (weak_best_needs_yes (externals school) (str "canteen") weak None
           initial eq_refl eq_refl).
Defined.

Lemma multi_match_exactly_when_witness :
  existsb isWhiteSpace (str "fees" ++ nl) = true
  /\ multiMatch (externals school) (str "fees" ++ nl)
       [fees; hostel] fees (Some hostel)
     = scoreValidation (externals school) (str "fees" ++ nl) fees
         (Some hostel).
Proof.
  split; [reflexivity|].
  apply (multi_match_exactly_when (externals school) (str "fees" ++ nl)
           [fees; hostel] fees (Some hostel)).
  left. reflexivity.
Defined.

Lemma cache_update_law_witness :
  EMB_CACHE initial !! str "fees" = None
  /\ EMB_CACHE (snd (handleChat (externals school) (request "fees")
                       initial))
     = <[str "fees" := [1%float; 0%float]]> (EMB_CACHE initial).
Proof.
  split; [reflexivity|].
  destruct (cache_update_law (externals school) (request "fees") initial)
    as (_ & Hlaw).
  rewrite (Hlaw (str "fees") _
             (Runs.school_atEmbed school "fees" initial eq_refl eq_refl
                ltac:(unequal) (str "fees") eq_refl)).
  reflexivity.
Defined.

Lemma cached_vector_is_reused_witness :
  EMB_CACHE afterSchoolFees !! str "school fees" = Some [1%float; 0%float]
  /\ exists evs,
       trace (snd (handleChat (externals school) (request "school fees")
                     afterSchoolFees))
       = evs ++ trace afterSchoolFees
       /\ Forall (fun e => isEmbedCall e = false) evs.
Proof.
  split; [reflexivity|].
  pose proof (Runs.school_atEmbed school "school fees" afterSchoolFees eq_refl eq_refl
                ltac:(unequal) (str "school fees") eq_refl) as Hat.
  match type of Hat with
  | atEmbed _ _ _ _ ?st3 =>
      destruct (cached_vector_is_reused (externals school)
                  (request "school fees") afterSchoolFees (str "school fees") st3
                  [1%float; 0%float] Hat eq_refl)
        as (_ & _ & Hcalls)
  end.
  exact Hcalls.
Defined.

(** A short question asked twice in a row is merged with itself. *)
Example short_question_repeated :
  let st1 := snd (handleChat (externals school) (request "fees") initial) in
  In (CallCorrectSpelling (str "fees fees"))
    (trace (snd (handleChat (externals school) (request "fees") st1))).
Proof. vm_compute. auto. Qed.

Lemma key_hidden_in_log_witness :
  forallb (fun i => negb (startsWith (skipn i (url sampleKey)) sampleKey))
    (seq 0 (length endpoint)) = true
  /\ loggedUrl sampleKey = endpoint ++ str "HIDDEN_KEY".
Proof.
  assert (H : forallb
                (fun i => negb (startsWith (skipn i (url sampleKey)) sampleKey))
                (seq 0 (length endpoint)) = true) by (vm_compute; reflexivity).
  split; [exact H|].
  exact (proj1 (ListModelsFacts.key_hidden_in_log sampleKey) H).
Defined.

(** A key that occurs in the endpoint is not hidden. *)
Example key_inside_endpoint :
  loggedUrl (str "key")
  = str "https://generativelanguage.googleapis.com/v1beta/models?HIDDEN_KEY=key".
Proof. vm_compute. reflexivity. Qed.

(** C10 as it was stated: with a previous question in the memory, the query
    that is corrected, normalized and embedded is ["school "], not [""]; and a
    request of white space that the router answers leaves the memory as it
    was. *)
Lemma blank_question_with_memory :
  trace (snd (handleChat (externals school) (request "   ") remembered))
  = [CallFindTopMatches [1%float; 0%float] (str "school ") 5;
     CallEmbedText (str "school ");
     CallNormalizeToMeaning (str "school ");
     CallCorrectSpelling (str "school ");
     CallRouter [] [] []]
  /\ ~ In (CallCorrectSpelling [])
         (trace (snd (handleChat (externals school) (request "   ")
                        remembered)))
  /\ memory (snd (handleChat (externals tour) (request "   ") remembered))
     = str "school"
  /\ memory (snd (handleChat (externals tour) (request "   ") remembered))
     <> [].
Proof.
  split; [reflexivity|]. split; [|split; [reflexivity | unequal]].
  vm_compute. intros H.
  repeat (destruct H as [H|H]; [discriminate H|]). exact H.
Qed.

Lemma blank_question_enters_pipeline_witness :
  forallb isWhiteSpace (str "   ") = true
  /\ fst (handleChat (externals school) (request "   ") initial)
     <> requiredAnswer
  /\ memory (snd (handleChat (externals school) (request "   ") remembered))
     = []
  /\ (exists evs,
        trace (snd (handleChat (externals school) (request "   ") remembered))
        = evs ++ [CallEmbedText (str "school ");
                  CallNormalizeToMeaning (str "school ");
                  CallCorrectSpelling (str "school ");
                  CallRouter [] [] []])
  /\ EMB_CACHE (snd (handleChat (externals school) (request "   ") remembered))
     = <[str "school " := [1%float; 0%float]]> ∅.
Proof.
  split; [reflexivity|].
  split.
  - apply (blank_question_enters_pipeline (externals school) (request "   ")
             (str "   ") initial eq_refl); [unequal | reflexivity].
  - destruct (blank_question_enters_pipeline (externals school)
                (request "   ") (str "   ") remembered eq_refl
                ltac:(unequal) eq_refl)
      as (_ & _ & _ & Hpipeline).
    destruct (Hpipeline {| intent := str "school"; target := None |} 2%nat
                eq_refl) as (_ & Hon).
    destruct (Hon ltac:(unequal) ltac:(unequal))
      as (Hmem & _ & _ & _ & Hnorm).
    destruct (Hnorm (str "school ") 3%nat eq_refl) as (_ & Hembed).
    destruct (Hembed (str "school ") 4%nat eq_refl) as (Htrace & Hcache).
    split; [exact Hmem|]. split; [exact Htrace | exact Hcache].
Defined.

Lemma embedding_models_listed_witness :
  listModels (fun _ => Return (Some sampleModels)) sampleKey
  = [LogFetching (loggedUrl sampleKey);
     LogAvailable;
     LogModel (str "- models/text-embedding-004 (Supported methods: embedContent,batchEmbed)");
     LogError].
Proof.
  destruct (ListModelsFacts.embedding_models_listed
              (fun _ => Return (Some sampleModels)) sampleKey sampleModels
              eq_refl) as (_ & Habort).
  rewrite (Habort
             [ {| name := Some (str "models/gemini-pro");
                  supportedGenerationMethods := [str "generateContent"] |};
               {| name := Some (str "models/text-embedding-004");
                  supportedGenerationMethods :=
                    [str "embedContent"; str "batchEmbed"] |} ]
             {| name := None; supportedGenerationMethods := [] |}
             [ {| name := Some (str "models/embedding-001");
                  supportedGenerationMethods := [str "embedContent"] |} ]
             eq_refl).
  - reflexivity.
  - repeat constructor; discriminate.
  - reflexivity.
Defined.

End MoreRuns.
